(** * Persisted-query resolution of go-graphql-handler

    A shallow embedding of [persistedQueryCheck] (the persisted-query
    resolver), of [Handler.ContextHandler] (its only caller), of the request
    decoding in [NewRequestOptions] and [getFromForm] and of the constructor
    [New], followed by the properties of the two-phase register / look-up
    protocol, of the runs of the handler and of decoding.

    Go features that matter here and how they are rendered:
    - [map[string]T] is a [gmap string T]; indexing a missing key yields the
      zero value of [T];
    - [interface{}] values coming from [encoding/json] are the tagged union
      [iface];
    - an unchecked type assertion [x.(T)] panics when the dynamic type of
      [x] is not [T];
    - [*RequestOptions] is a pointer into a heap of request objects, so that
      writes made through [opts] stay visible after the call returns;
    - the package-level variable [cache] is a field of the world. *)

From Stdlib Require Import PrimFloat.
From stdpp Require Import gmap strings list fin_maps.

Local Open Scope string_scope.

Set Warnings "-register-all".

(** ** Values of type [interface{}] as [encoding/json] builds them *)

Definition float64 : Set := PrimFloat.float.

Inductive iface : Type :=
| INil
| IBool (b : bool)
| IFloat64 (f : float64)
| IString (s : string)
| ISlice (l : list iface)
| IMap (m : gmap string iface).

(** [m[k]] on a [map[string]interface{}]: the nil interface when [k] is
    missing. *)
Definition index_iface (m : gmap string iface) (k : string) : iface :=
  default INil (m !! k).

(** [v == nil] on an interface value. *)
Definition is_nil (v : iface) : bool :=
  match v with INil => true | _ => false end.

(** ** Structs *)

Record CacheEntry : Type := mkCacheEntry {
  operationName : string;
  query : string;
  sha256Hash : string;
  version : float64
}.

(** The zero value of [CacheEntry], what [cache[sha]] yields on a miss. *)
Definition zeroCacheEntry : CacheEntry :=
  {| operationName := ""; query := ""; sha256Hash := ""; version := 0%float |}.

(** [Variables] and [Extensions] are Go maps: [None] is the nil map. *)
Record RequestOptions : Type := mkRequestOptions {
  Query : string;
  Variables : option (gmap string iface);
  OperationName : string;
  Extensions : option (gmap string iface);
  Persisted : bool;
  HasPersistedParams : bool
}.

Definition set_Query (q : string) (o : RequestOptions) : RequestOptions :=
  {| Query := q; Variables := Variables o; OperationName := OperationName o;
     Extensions := Extensions o; Persisted := Persisted o;
     HasPersistedParams := HasPersistedParams o |}.

Definition set_OperationName (n : string) (o : RequestOptions) : RequestOptions :=
  {| Query := Query o; Variables := Variables o; OperationName := n;
     Extensions := Extensions o; Persisted := Persisted o;
     HasPersistedParams := HasPersistedParams o |}.

Definition set_Persisted (b : bool) (o : RequestOptions) : RequestOptions :=
  {| Query := Query o; Variables := Variables o; OperationName := OperationName o;
     Extensions := Extensions o; Persisted := b;
     HasPersistedParams := HasPersistedParams o |}.

Definition set_HasPersistedParams (b : bool) (o : RequestOptions) : RequestOptions :=
  {| Query := Query o; Variables := Variables o; OperationName := OperationName o;
     Extensions := Extensions o; Persisted := Persisted o;
     HasPersistedParams := b |}.

(** An [error] made by [errors.New]; [Error] is its [Error()] method. *)
Inductive error : Type := errors_New (msg : string).

Definition Error (e : error) : string :=
  match e with errors_New msg => msg end.

(** ** The world: the global cache, the heap of requests, the effects seen
    from outside *)

Definition loc : Set := positive.

(** A [*RequestOptions]: [None] is the nil pointer. *)
Definition ptr : Set := option loc.

(** [graphql.Params] without its schema and context, which the handler only
    passes on. *)
Record Params : Type := mkParams {
  RequestString : string;
  VariableValues : option (gmap string iface);
  ParamsOperationName : string;
  RootObject : option (gmap string iface)
}.

(** What a run of the handler does to its [http.ResponseWriter] and which
    collaborators it calls, in order. *)
Inductive event : Type :=
| HeaderSet (k v : string)
| HeaderAdd (k v : string)
| WriteHeader (code : Z)
| Write (body : string)
| GraphqlDo (p : Params)
| FormatErrors
| RenderGraphiQL (p : Params)
| RenderPlayground
| ResultCallback (p : Params) (body : string).

Record World : Type := mkWorld {
  cache : gmap string CacheEntry;
  heap : gmap loc RequestOptions;
  trace : list event
}.

Definition with_cache (c : gmap string CacheEntry) (w : World) : World :=
  {| cache := c; heap := heap w; trace := trace w |}.

Definition with_heap (h : gmap loc RequestOptions) (w : World) : World :=
  {| cache := cache w; heap := h; trace := trace w |}.

Definition with_trace (t : list event) (w : World) : World :=
  {| cache := cache w; heap := heap w; trace := t |}.

(** ** A state monad with run-time panics *)

Inductive fault : Set :=
| NilDereference        (* invalid memory address or nil pointer dereference *)
| InterfaceConversion.  (* a failed unchecked type assertion *)

Inductive outcome (A : Type) : Type :=
| Done (a : A) (w : World)
| Panic (f : fault) (w : World).

Arguments Done {A} a w.
Arguments Panic {A} f w.

Definition Go (A : Type) : Type := World -> outcome A.

Definition ret {A} (a : A) : Go A := fun w => Done a w.

Definition bind {A B} (m : Go A) (k : A -> Go B) : Go B :=
  fun w => match m w with
           | Done a w' => k a w'
           | Panic f w' => Panic f w'
           end.

Definition panic {A} (f : fault) : Go A := fun w => Panic f w.

Notation "'let*' x ':=' m 'in' k" := (bind m (fun x => k))
  (at level 10, x name, m at level 200, k at level 200,
   format "'[v' 'let*'  x  ':='  m  'in' '/' k ']'").

(** The world a computation stops in, whether it returns or panics. *)
Definition final_world {A} (o : outcome A) : World :=
  match o with Done _ w => w | Panic _ w => w end.

(** Reading and writing through a pointer. *)
Definition load (p : ptr) : Go RequestOptions :=
  fun w => match p with
           | None => Panic NilDereference w
           | Some l => match heap w !! l with
                       | Some o => Done o w
                       | None => Panic NilDereference w
                       end
           end.

Definition modify (p : ptr) (f : RequestOptions -> RequestOptions) : Go unit :=
  let* o := load p in
  fun w => match p with
           | Some l => Done tt (with_heap (<[l := f o]> (heap w)) w)
           | None => Panic NilDereference w
           end.

(** [&RequestOptions{...}]: a fresh object. *)
Definition new (o : RequestOptions) : Go ptr :=
  fun w => let l := fresh (dom (heap w)) in
           Done (Some l) (with_heap (<[l := o]> (heap w)) w).

Definition cache_index (k : string) : Go CacheEntry :=
  fun w => Done (default zeroCacheEntry (cache w !! k)) w.

Definition cache_store (k : string) (e : CacheEntry) : Go unit :=
  fun w => Done tt (with_cache (<[k := e]> (cache w)) w).

Definition emit (e : event) : Go unit :=
  fun w => Done tt (with_trace (trace w ++ [e]) w).

(** Unchecked type assertions [v.(T)]. *)
Definition assert_map (v : iface) : Go (gmap string iface) :=
  match v with IMap m => ret m | _ => panic InterfaceConversion end.

Definition assert_string (v : iface) : Go string :=
  match v with IString s => ret s | _ => panic InterfaceConversion end.

Definition assert_float64 (v : iface) : Go float64 :=
  match v with IFloat64 f => ret f | _ => panic InterfaceConversion end.

(** ** [persistedQueryCheck] *)

(** The one-byte string holding a double quote (byte 34). *)
Definition quote : string := String (Ascii.ascii_of_nat 34) EmptyString.

(** The text handed to [errors.New] on a look-up miss. *)
Definition PersistedQueryNotFound : string :=
  "{" ++ quote ++ "errors" ++ quote ++ ":[{" ++ quote ++ "message" ++ quote
  ++ ":" ++ quote ++ "PersistedQueryNotFound" ++ quote ++ "," ++ quote
  ++ "extensions" ++ quote ++ ":{" ++ quote ++ "code" ++ quote ++ ":" ++ quote
  ++ "PERSISTED_QUERY_NOT_FOUND" ++ quote ++ "}}]}".

Definition str_empty (s : string) : bool :=
  match s with EmptyString => true | String _ _ => false end.

Definition persistedQueryCheck (opts : ptr) : Go (ptr * option error) :=
  let* o := load opts in
  match Extensions o with
  | None => ret (opts, None)
  | Some extensions =>
    let persistedQuery := index_iface extensions "persistedQuery" in
    if is_nil persistedQuery then ret (opts, None) else
    let* values := assert_map persistedQuery in
    let* sha := assert_string (index_iface values "sha256Hash") in
    if str_empty sha then ret (opts, None) else
    let* _ := modify opts (set_HasPersistedParams true) in
    let* o1 := load opts in
    if str_empty (Query o1) then
      let* cachedValue := cache_index sha in
      if str_empty (query cachedValue) then
        ret (None, Some (errors_New PersistedQueryNotFound))
      else
        let* _ := modify opts (set_OperationName (operationName cachedValue)) in
        let* _ := modify opts (set_Query (query cachedValue)) in
        let* _ := modify opts (set_Persisted true) in
        ret (opts, None)
    else
      let* o2 := load opts in
      if negb (str_empty (Query o2)) then
        let* v := assert_float64 (index_iface values "version") in
        let* _ := cache_store sha
             {| operationName := OperationName o2; query := Query o2;
                sha256Hash := sha; version := v |} in
        ret (opts, None)
      else ret (opts, None)
  end.

(** ** [Handler.ContextHandler] *)

(** [strings.Contains]. *)
Definition strings_Contains (s substr : string) : bool :=
  match String.index 0 substr s with Some _ => true | None => false end.

(** The parts of an [*http.Request] the handler reads by itself:
    [r.Method], [r.Header.Get("Accept")], and whether [r.URL.Query()] has
    the key [raw]. *)
Record Request : Type := mkRequest {
  Method : string;
  Accept : string;
  raw : bool
}.

Section Handler.

(** Collaborators outside the resolver: request decoding
    ([NewRequestOptions], which every path ends with a non-nil pointer to
    a new object; here the decoded value), the execution engine and the
    serializer. *)
Variable NewRequestOptions : Request -> RequestOptions.
Variable Result : Type.
Variable graphql_Do : Params -> Result.
Variable len_Errors : Result -> nat.
Variable format_Errors : Result -> Result.
Variable json_Marshal : Result -> string.
Variable json_MarshalIndent : Result -> string.

(** The function-valued fields are kept as far as the control flow reads
    them: [formatErrorFn] and [resultCallbackFn] by whether they are set.
    The schema is left out: the handlers meant are those [New] builds,
    which have one, so that [*h.Schema] does not fault; and the calls into
    the engine and into the caller's functions are taken to return. *)
Record Handler : Type := mkHandler {
  pretty : bool;
  graphiql : bool;
  playground : bool;
  rootObjectFn : option (Request -> option (gmap string iface));
  resultCallbackFn : bool;
  formatErrorFn : bool
}.

Definition wants_html (r : Request) : bool :=
  negb (raw r)
  && negb (strings_Contains (Accept r) "application/json")
  && strings_Contains (Accept r) "text/html".

Definition ContextHandler (h : Handler) (r : Request) : Go unit :=
  let* opts := new (NewRequestOptions r) in
  let* res := persistedQueryCheck opts in
  match snd res with
  | Some err =>
    let* _ := emit (HeaderSet "Content-Type" "application/json") in
    emit (Write (Error err))
  | None =>
    let opts := fst res in
    if String.eqb (Method r) "OPTIONS" then emit (WriteHeader 204) else
    let* o := load opts in
    let params :=
      {| RequestString := Query o; VariableValues := Variables o;
         ParamsOperationName := OperationName o;
         RootObject := match rootObjectFn h with
                       | Some f => f r
                       | None => None
                       end |} in
    let* _ := emit (GraphqlDo params) in
    let result := graphql_Do params in
    let* result :=
      if formatErrorFn h && (0 <? len_Errors result)%nat
      then let* _ := emit FormatErrors in ret (format_Errors result)
      else ret result in
    if graphiql h && wants_html r then emit (RenderGraphiQL params) else
    if playground h && wants_html r then emit RenderPlayground else
    let* _ := emit (HeaderAdd "Content-Type" "application/json; charset=utf-8") in
    let* _ := emit (WriteHeader 200) in
    let buff := if pretty h then json_MarshalIndent result
                else json_Marshal result in
    let* _ := emit (Write buff) in
    if resultCallbackFn h then emit (ResultCallback params buff) else ret tt
  end.

End Handler.

(** ** Shapes of requests *)

(** The request carries a persisted-query descriptor [values] whose
    [sha256Hash] is the string [sha]. *)
Definition carries_hash (r : RequestOptions) (values : gmap string iface)
    (sha : string) : Prop :=
  exists extensions,
    Extensions r = Some extensions
    /\ extensions !! "persistedQuery" = Some (IMap values)
    /\ values !! "sha256Hash" = Some (IString sha).

(** No [extensions], no [persistedQuery] in them (or a null one), or a
    descriptor whose [sha256Hash] is the empty string. *)
Definition not_persisted (r : RequestOptions) : Prop :=
  Extensions r = None
  \/ (exists extensions,
        Extensions r = Some extensions
        /\ index_iface extensions "persistedQuery" = INil)
  \/ (exists values, carries_hash r values "").

(** A [persistedQuery] that is there but is no object, or is an object whose
    [sha256Hash] is missing or is no string. *)
Definition malformed_descriptor (r : RequestOptions) : Prop :=
  exists extensions,
    Extensions r = Some extensions
    /\ match index_iface extensions "persistedQuery" with
       | INil => False
       | IMap values =>
           match index_iface values "sha256Hash" with
           | IString _ => False
           | _ => True
           end
       | _ => True
       end.

Definition is_float64 (v : iface) : bool :=
  match v with IFloat64 _ => true | _ => false end.

Definition is_GraphqlDo (e : event) : bool :=
  match e with GraphqlDo _ => true | _ => false end.

(** What a caller sees of a call: the request behind the returned pointer,
    and the returned error. *)
Definition returned (out : outcome (ptr * option error))
    : option RequestOptions :=
  match out with
  | Done (Some l, _) w => heap w !! l
  | _ => None
  end.

Definition failure (out : outcome (ptr * option error)) : option error :=
  match out with
  | Done (_, err) _ => err
  | Panic _ _ => None
  end.

Definition panics {A} (out : outcome A) : bool :=
  match out with Done _ _ => false | Panic _ _ => true end.

(** A request whose two output flags are still at their zero value, as the
    composite literals of [getFromForm] and [NewRequestOptions] leave
    them. *)
Definition unmarked (r : RequestOptions) : Prop :=
  Persisted r = false /\ HasPersistedParams r = false.

(** The request after the resolver has marked it and, on a hit, filled it in
    from the cached entry. *)
Definition marked (r : RequestOptions) : RequestOptions :=
  set_HasPersistedParams true r.

Definition resolved (e : CacheEntry) (r : RequestOptions) : RequestOptions :=
  set_Persisted true
    (set_Query (query e) (set_OperationName (operationName e) (marked r))).

Definition entry_of (r : RequestOptions) (sha : string) (v : float64)
    : CacheEntry :=
  {| operationName := OperationName r; query := Query r;
     sha256Hash := sha; version := v |}.

(** The bytes of the error body of the wire contract,
    [{"errors":[{"message":"PersistedQueryNotFound","extensions":{"code":"PERSISTED_QUERY_NOT_FOUND"}}]}],
    as character codes. *)
Definition not_found_wire_body : list nat :=
  [123; 34; 101; 114; 114; 111; 114; 115; 34; 58; 91; 123; 34; 109; 101;
   115; 115; 97; 103; 101; 34; 58; 34; 80; 101; 114; 115; 105; 115; 116;
   101; 100; 81; 117; 101; 114; 121; 78; 111; 116; 70; 111; 117; 110; 100;
   34; 44; 34; 101; 120; 116; 101; 110; 115; 105; 111; 110; 115; 34; 58;
   123; 34; 99; 111; 100; 101; 34; 58; 34; 80; 69; 82; 83; 73; 83; 84; 69;
   68; 95; 81; 85; 69; 82; 89; 95; 78; 79; 84; 95; 70; 79; 85; 78; 68; 34;
   125; 125; 93; 125].

Definition bytes_of (s : string) : list nat :=
  Ascii.nat_of_ascii <$> String.list_ascii_of_string s.

(** ** Sample requests: the end-to-end exchange of the protocol *)

Definition descriptor (sha : string) (ver : iface) : gmap string iface :=
  {[ "sha256Hash" := IString sha; "version" := ver ]}.

Definition request (q : string) (extensions : option (gmap string iface))
    : RequestOptions :=
  {| Query := q; Variables := None; OperationName := "";
     Extensions := extensions; Persisted := false;
     HasPersistedParams := false |}.

Definition persisted (d : gmap string iface) : option (gmap string iface) :=
  Some {[ "persistedQuery" := IMap d ]}.

Definition one : iface := IFloat64 1%float.

Definition sample_handler : Handler :=
  {| pretty := true; graphiql := true; playground := false;
     rootObjectFn := None; resultCallbackFn := false; formatErrorFn := false |}.

(** A world with an empty cache and the given requests at 1, 2, ... *)
Definition world_of (rs : list RequestOptions) : World :=
  {| cache := ∅;
     heap := list_to_map (zip (Pos.of_nat <$> seq 1 (length rs)) rs);
     trace := [] |}.

(** ** Request decoding: [getFromForm] and [NewRequestOptions] *)

Definition ContentTypeJSON : string := "application/json".
Definition ContentTypeGraphQL : string := "application/graphql".
Definition ContentTypeFormURLEncoded : string :=
  "application/x-www-form-urlencoded".

(** [url.Values] is a [map[string][]string]; [Get] is the first value under
    the key, the empty string when there is none. *)
Abbreviation Values := (gmap string (list string)).

Definition Values_Get (v : Values) (key : string) : string :=
  match v !! key with
  | Some (x :: _) => x
  | _ => ""
  end.

(** [strings.Split(s, ";")[0]]: the text before the first semicolon. *)
Fixpoint first_token (s : string) : string :=
  match s with
  | EmptyString => EmptyString
  | String c rest =>
      if Ascii.eqb c (Ascii.ascii_of_nat 59) then EmptyString
      else String c (first_token rest)
  end.

(** What [NewRequestOptions] reads of an [*http.Request]: the method, the
    raw query of the URL, the body ([None] for a nil body, [Some None] when
    reading it fails, else its bytes) and the [Content-Type] header. *)
Record HttpRequest : Type := mkHttpRequest {
  ReqMethod : string;
  RawQuery : string;
  Body : option (option string);
  ContentType : string
}.

(** The zero value [RequestOptions{}]. *)
Definition zeroRequestOptions : RequestOptions :=
  {| Query := ""; Variables := None; OperationName := "";
     Extensions := None; Persisted := false; HasPersistedParams := false |}.

Definition set_Variables (v : option (gmap string iface)) (o : RequestOptions)
    : RequestOptions :=
  {| Query := Query o; Variables := v; OperationName := OperationName o;
     Extensions := Extensions o; Persisted := Persisted o;
     HasPersistedParams := HasPersistedParams o |}.

Section Decoding.

(** [encoding/json], from outside the repository. [json_Unmarshal_map data
    m] is the map variable after [json.Unmarshal(data, &m)], whatever the
    error; [json_Unmarshal_RequestOptions data] is a zero [RequestOptions]
    after [json.Unmarshal(data, &opts)] and whether the error was nil;
    [json_Unmarshal_compat data] is the [Variables] string of a
    [requestOptionsCompatibility] decoded from [data]. *)
Variable json_Unmarshal_map :
  string -> option (gmap string iface) -> option (gmap string iface).
Variable json_Unmarshal_RequestOptions : string -> RequestOptions * bool.
Variable json_Unmarshal_compat : string -> string.

(** [net/url] and [net/http], from outside the repository. [url_Query raw]
    is [r.URL.Query()] for a URL whose raw query is [raw]. [http_ParseForm
    r] is [r.PostForm] after [r.ParseForm()], [None] when [ParseForm]
    returns an error; it is a function of the whole request, since
    [ParseForm] reads the body, the [Content-Type] header and the URL's raw
    query. *)
Variable url_Query : string -> Values.
Variable http_ParseForm : HttpRequest -> option Values.

(** The value behind the pointer [getFromForm] returns (never nil: it is the
    address of a composite literal). The two maps start as [make]s them,
    empty and not nil. *)
Definition getFromForm (values : Values) : RequestOptions :=
  let query := Values_Get values "query" in
  let variablesStr := Values_Get values "variables" in
  let extensionsStr := Values_Get values "extensions" in
  let variables := json_Unmarshal_map variablesStr (Some ∅) in
  let extensions := json_Unmarshal_map extensionsStr (Some ∅) in
  {| Query := query; Variables := variables;
     OperationName := Values_Get values "operationName";
     Extensions := extensions;
     Persisted := false; HasPersistedParams := false |}.

(** The value behind the pointer [NewRequestOptions] returns. [reqOpt] is
    never nil, so the first test is on the method alone and the second one
    cannot fire. *)
Definition NewRequestOptions (r : HttpRequest) : RequestOptions :=
  let reqOpt := getFromForm (url_Query (RawQuery r)) in
  if negb (String.eqb (ReqMethod r) "POST") then reqOpt else
  if negb (String.eqb (ReqMethod r) "POST") then zeroRequestOptions else
  match Body r with
  | None => zeroRequestOptions
  | Some body =>
    let contentType := first_token (ContentType r) in
    if String.eqb contentType ContentTypeGraphQL then
      match body with
      | None => zeroRequestOptions
      | Some b => set_Query b zeroRequestOptions
      end
    else if String.eqb contentType ContentTypeFormURLEncoded then
      match http_ParseForm r with
      | None => zeroRequestOptions
      | Some form => getFromForm form
      end
    else
      match body with
      | None => zeroRequestOptions
      | Some b =>
        let (opts, ok) := json_Unmarshal_RequestOptions b in
        if ok then opts
        else
          set_Variables
            (json_Unmarshal_map (json_Unmarshal_compat b) (Variables opts))
            opts
      end
  end.

End Decoding.

(** ** Construction: [Config], [NewConfig], [New] *)

Section Construction.

(** [graphql.Schema], from outside the repository. *)
Variable graphql_Schema : Type.

(** The function-valued fields as in [Handler]. *)
Record Config : Type := mkConfig {
  Schema : option graphql_Schema;
  Pretty : bool;
  GraphiQL : bool;
  Playground : bool;
  RootObjectFn : option (Request -> option (gmap string iface));
  ResultCallbackFn : bool;
  FormatErrorFn : bool
}.

Definition NewConfig : Config :=
  {| Schema := None; Pretty := true; GraphiQL := true; Playground := false;
     RootObjectFn := None; ResultCallbackFn := false; FormatErrorFn := false |}.

(** [New] returns a handler or panics with a message. [Handler] above leaves
    the schema out, so it comes beside the handler here. *)
Inductive constructed : Type :=
| Constructed (schema : graphql_Schema) (h : Handler)
| ConstructionPanic (msg : string).

Definition New (p : option Config) : constructed :=
  let p := match p with None => NewConfig | Some c => c end in
  match Schema p with
  | None => ConstructionPanic "undefined GraphQL schema"
  | Some schema =>
      Constructed schema
        {| pretty := Pretty p; graphiql := GraphiQL p;
           playground := Playground p; rootObjectFn := RootObjectFn p;
           resultCallbackFn := ResultCallbackFn p;
           formatErrorFn := FormatErrorFn p |}
  end.

End Construction.

(** ** Notions used by the further properties *)

(** Every entry sits under its own hash, which is not empty, and holds a
    query text that is not empty. *)
Definition cache_ok (c : gmap string CacheEntry) : Prop :=
  forall k e, c !! k = Some e ->
    sha256Hash e = k /\ k <> "" /\ query e <> "".

(** The [graphql.Params] the handler builds for request [req] once the
    resolver has left [o] behind [opts]. *)
Definition params_of (h : Handler) (req : Request) (o : RequestOptions)
    : Params :=
  {| RequestString := Query o; VariableValues := Variables o;
     ParamsOperationName := OperationName o;
     RootObject := match rootObjectFn h with
                   | Some f => f req
                   | None => None
                   end |}.

(** The events a run appended to the trace. *)
Definition new_events (w w' : World) : list event :=
  drop (length (trace w)) (trace w').

(** A registration that the resolver cannot complete: the query is there,
    the hash is there, [version] is no number. *)
Definition unversioned_registration (r : RequestOptions) : Prop :=
  exists values sha,
    carries_hash r values sha /\ sha <> "" /\ Query r <> ""
    /\ is_float64 (index_iface values "version") = false.

(** The request the handler allocates and the world the resolver starts
    in. *)
Definition request_loc (w : World) : loc := fresh (dom (heap w)).

Definition world_with (o : RequestOptions) (w : World) : World :=
  with_heap (<[request_loc w := o]> (heap w)) w.

Section Response.

Variable Result : Type.
Variable graphql_Do : Params -> Result.
Variable len_Errors : Result -> nat.
Variable format_Errors : Result -> Result.
Variable json_Marshal : Result -> string.
Variable json_MarshalIndent : Result -> string.

(** The result the handler serializes: that of [graphql.Do], its errors
    reformatted when a [formatErrorFn] is set and there are errors. *)
Definition formats (h : Handler) (p : Params) : bool :=
  formatErrorFn h && (0 <? len_Errors (graphql_Do p))%nat.

Definition served_result (h : Handler) (p : Params) : Result :=
  if formats h p then format_Errors (graphql_Do p) else graphql_Do p.

Definition served_body (h : Handler) (p : Params) : string :=
  if pretty h then json_MarshalIndent (served_result h p)
  else json_Marshal (served_result h p).

(** The events of [ContextHandler] from the return of [graphql.Do] on, read
    off its last forty lines. *)
Definition response_events (h : Handler) (req : Request) (p : Params)
    : list event :=
  (if formats h p then [FormatErrors] else [])
  ++ (if graphiql h && wants_html req then [RenderGraphiQL p]
      else if playground h && wants_html req then [RenderPlayground]
      else [HeaderAdd "Content-Type" "application/json; charset=utf-8";
            WriteHeader 200; Write (served_body h p)]
           ++ (if resultCallbackFn h
               then [ResultCallback p (served_body h p)] else []))%list.

End Response.

(** ** Sample runs *)

(** A handler run with an engine whose result is empty and serialized as
    the two bytes of an empty object. *)
Definition sample_serve (decode : Request -> RequestOptions)
    : Handler -> Request -> Go unit :=
  ContextHandler decode unit (fun _ => tt) (fun _ => 0) id
    (fun _ => "{}") (fun _ => "{}").

Definition post : Request := mkRequest "POST" "application/json" false.

Definition browser : Request := mkRequest "GET" "text/html" false.

(** An [encoding/json] that decodes nothing (every variable is left as it
    was and every call reports an error), a URL parser that finds no
    parameter and a [ParseForm] that always fails. *)
Definition sample_decode_request : HttpRequest -> RequestOptions :=
  NewRequestOptions (fun _ m => m) (fun _ => (zeroRequestOptions, false))
    (fun _ => "") (fun _ => ∅) (fun _ => None).

(** ** Running the monad *)

Lemma load_heap w l o :
  heap w !! l = Some o -> load (Some l) w = Done o w.
Proof. intros H. unfold load. by rewrite H. Qed.

Lemma modify_heap w l o f :
  heap w !! l = Some o ->
  modify (Some l) f w = Done tt (with_heap (<[l := f o]> (heap w)) w).
Proof. intros H. unfold modify, bind. by rewrite (load_heap _ _ _ H). Qed.

Lemma heap_with_heap h w : heap (with_heap h w) = h.
Proof. done. Qed.

Lemma with_heap_twice h1 h2 w : with_heap h2 (with_heap h1 w) = with_heap h2 w.
Proof. done. Qed.

Lemma str_empty_true s : str_empty s = true <-> s = "".
Proof. destruct s; simpl; split; congruence. Qed.

Lemma str_empty_false s : str_empty s = false <-> s <> "".
Proof. destruct s; simpl; split; congruence. Qed.

(** ** The paths through [persistedQueryCheck], one lemma each *)

Lemma index_iface_Some (m : gmap string iface) k v :
  m !! k = Some v -> index_iface m k = v.
Proof. intros H. unfold index_iface. by rewrite H. Qed.

Lemma check_nil_pointer w :
  persistedQueryCheck None w = Panic NilDereference w.
Proof. reflexivity. Qed.

Lemma check_not_persisted w l r :
  heap w !! l = Some r -> not_persisted r ->
  persistedQueryCheck (Some l) w = Done (Some l, None) w.
Proof.
  intros Hl Hr. unfold persistedQueryCheck, bind.
  rewrite (load_heap _ _ _ Hl).
  destruct Hr as [-> | [(ext & -> & Hnil) | (values & ext & -> & Hpq & Hsha)]].
  - reflexivity.
  - rewrite Hnil. reflexivity.
  - rewrite (index_iface_Some _ _ _ Hpq). cbn [is_nil assert_map ret].
    rewrite (index_iface_Some _ _ _ Hsha). reflexivity.
Qed.

Lemma check_malformed w l r :
  heap w !! l = Some r -> malformed_descriptor r ->
  persistedQueryCheck (Some l) w = Panic InterfaceConversion w.
Proof.
  intros Hl (ext & Hext & Hshape). unfold persistedQueryCheck, bind.
  rewrite (load_heap _ _ _ Hl), Hext.
  destruct (index_iface ext "persistedQuery") as [| | | | |values];
    try done.
  cbn. destruct (index_iface values "sha256Hash"); done.
Qed.

(** From the marking of the request on: what the three protocol paths have
    in common. *)
Lemma check_marks w l r values sha :
  heap w !! l = Some r -> carries_hash r values sha -> sha <> "" ->
  persistedQueryCheck (Some l) w =
    let w1 := with_heap (<[l := marked r]> (heap w)) w in
    if str_empty (Query r) then
      let cachedValue := default zeroCacheEntry (cache w !! sha) in
      if str_empty (query cachedValue) then
        Done (None, Some (errors_New PersistedQueryNotFound)) w1
      else
        Done (Some l, None)
             (with_heap (<[l := resolved cachedValue r]> (heap w)) w)
    else
      match index_iface values "version" with
      | IFloat64 v =>
          Done (Some l, None)
               (with_cache (<[sha := entry_of r sha v]> (cache w)) w1)
      | _ => Panic InterfaceConversion w1
      end.
Proof.
  intros Hl (ext & Hext & Hpq & Hsha) Hne.
  apply str_empty_false in Hne.
  unfold persistedQueryCheck, bind at 1.
  rewrite (load_heap _ _ _ Hl), Hext.
  rewrite (index_iface_Some _ _ _ Hpq). cbn [is_nil assert_map].
  unfold bind at 1. cbn [ret].
  rewrite (index_iface_Some _ _ _ Hsha). cbn [assert_string].
  unfold bind at 1. cbn [ret]. rewrite Hne.
  unfold bind at 1. rewrite (modify_heap _ _ _ _ Hl).
  set (w1 := with_heap _ w).
  assert (H1 : heap w1 !! l = Some (marked r)) by apply lookup_insert_eq.
  unfold bind at 1. rewrite (load_heap _ _ _ H1).
  change (Query (marked r)) with (Query r).
  destruct (str_empty (Query r)) eqn:Hq.
  - unfold bind at 1, cache_index. change (cache w1) with (cache w).
    destruct (str_empty (query _)); [reflexivity|].
    unfold bind. rewrite (modify_heap _ _ _ _ H1).
    subst w1. rewrite with_heap_twice, heap_with_heap, insert_insert_eq.
    erewrite modify_heap by apply lookup_insert_eq.
    rewrite with_heap_twice, heap_with_heap, insert_insert_eq.
    erewrite modify_heap by apply lookup_insert_eq.
    rewrite with_heap_twice, heap_with_heap, insert_insert_eq.
    reflexivity.
  - unfold bind at 1. rewrite (load_heap _ _ _ H1).
    change (Query (marked r)) with (Query r). rewrite Hq. cbn [negb].
    unfold bind.
    destruct (index_iface values "version"); reflexivity.
Qed.

(** Every request falls under exactly the three shapes the resolver tells
    apart before it touches anything. *)
Lemma request_shapes r :
  not_persisted r \/ malformed_descriptor r
  \/ exists values sha, carries_hash r values sha /\ sha <> "".
Proof.
  destruct (Extensions r) as [ext|] eqn:Hext; [|left; by left].
  destruct (index_iface ext "persistedQuery") as [| | | | |values] eqn:Hpq.
  1: { left. right. left. by exists ext. }
  1-4: right; left; exists ext; by rewrite Hpq.
  assert (Hpq' : ext !! "persistedQuery" = Some (IMap values)).
  { unfold index_iface in Hpq. destruct (ext !! "persistedQuery"); naive_solver. }
  destruct (index_iface values "sha256Hash") as [| | |sha| |] eqn:Hsha.
  4: { assert (Hsha' : values !! "sha256Hash" = Some (IString sha)).
       { unfold index_iface in Hsha.
         destruct (values !! "sha256Hash"); naive_solver. }
       destruct sha as [|a sha].
       - left. right. right. exists values, ext. done.
       - right. right. exists values, (String a sha). split; [|done].
         exists ext. done. }
  all: right; left; exists ext; by rewrite Hpq, Hsha.
Qed.

Lemma check_dangling w l :
  heap w !! l = None -> persistedQueryCheck (Some l) w = Panic NilDereference w.
Proof. intros H. unfold persistedQueryCheck, bind, load. by rewrite H. Qed.

(** The cache after a call is the cache before it, or that with one entry
    stored. *)
Lemma check_cache opts w :
  let w' := final_world (persistedQueryCheck opts w) in
  cache w' = cache w \/ exists sha e, cache w' = <[sha := e]> (cache w).
Proof.
  destruct opts as [l|]; [|by left].
  destruct (heap w !! l) as [r|] eqn:Hl;
    [|rewrite (check_dangling _ _ Hl); by left].
  destruct (request_shapes r) as [Hr | [Hr | (values & sha & Hr & Hne)]].
  - rewrite (check_not_persisted _ _ _ Hl Hr). by left.
  - rewrite (check_malformed _ _ _ Hl Hr). by left.
  - rewrite (check_marks _ _ _ _ _ Hl Hr Hne). cbv zeta.
    destruct (str_empty (Query r)).
    + destruct (str_empty (query _)); by left.
    + destruct (index_iface values "version"); try by left.
      right. eexists _, _. reflexivity.
Qed.

Lemma PersistedQueryNotFound_bytes :
  bytes_of PersistedQueryNotFound = not_found_wire_body.
Proof. reflexivity. Qed.

Lemma check_lookup_miss w l r values sha :
  heap w !! l = Some r -> Query r = "" ->
  carries_hash r values sha -> sha <> "" -> cache w !! sha = None ->
  persistedQueryCheck (Some l) w
  = Done (None, Some (errors_New PersistedQueryNotFound))
      (with_heap (<[l := marked r]> (heap w)) w).
Proof.
  intros Hl Hq Hr Hne Hc.
  rewrite (check_marks _ _ _ _ _ Hl Hr Hne). cbv zeta.
  by rewrite Hq, Hc.
Qed.

Lemma check_register w l r values sha v :
  heap w !! l = Some r -> Query r <> "" ->
  carries_hash r values sha -> sha <> "" ->
  values !! "version" = Some (IFloat64 v) ->
  persistedQueryCheck (Some l) w
  = Done (Some l, None)
      (with_cache (<[sha := entry_of r sha v]> (cache w))
         (with_heap (<[l := marked r]> (heap w)) w)).
Proof.
  intros Hl Hq Hr Hne Hv.
  rewrite (check_marks _ _ _ _ _ Hl Hr Hne). cbv zeta.
  apply str_empty_false in Hq.
  by rewrite Hq, (index_iface_Some _ _ _ Hv).
Qed.

Lemma check_lookup_hit w l r values sha e :
  heap w !! l = Some r -> Query r = "" ->
  carries_hash r values sha -> sha <> "" ->
  cache w !! sha = Some e -> query e <> "" ->
  persistedQueryCheck (Some l) w
  = Done (Some l, None) (with_heap (<[l := resolved e r]> (heap w)) w).
Proof.
  intros Hl Hq Hr Hne Hc He.
  rewrite (check_marks _ _ _ _ _ Hl Hr Hne). cbv zeta.
  apply str_empty_false in He.
  by rewrite Hq, Hc; cbn [default from_option id]; rewrite He.
Qed.

(** A look-up of [sha] in a world whose cache holds query text [q] under
    it. *)
Lemma check_lookup_of_registered w l r values sha e :
  heap w !! l = Some r -> Query r = "" ->
  carries_hash r values sha -> sha <> "" ->
  cache w !! sha = Some e -> query e <> "" ->
  exists w' r',
    persistedQueryCheck (Some l) w = Done (Some l, None) w'
    /\ heap w' !! l = Some r'
    /\ Query r' = query e /\ Persisted r' = true.
Proof.
  intros Hl Hq Hr Hne Hc He.
  eexists _, (resolved e r). split.
  - exact (check_lookup_hit _ _ _ _ _ _ Hl Hq Hr Hne Hc He).
  - cbn [heap with_heap]. rewrite lookup_insert_eq. done.
Qed.

(** ** The claims *)

(** C1, as stated, fails in two ways. With the empty string as the hash,
    both calls pass the request through: nothing is stored and the look-up
    request comes back with its empty query and [Persisted] false. With hash
    [abc123] but no [version] in the descriptor, the registration call stops
    in a failed type assertion. *)
Lemma round_trip_needs_hash_and_version :
  let reg := request "{ hello }" (persisted (descriptor "" one)) in
  let look := request "" (persisted (descriptor "" one)) in
  let w := world_of [reg; look] in
  let bare := request "{ hello }"
                (persisted {[ "sha256Hash" := IString "abc123" ]}) in
  let w' := world_of [bare] in
  (persistedQueryCheck (Some 1%positive) w = Done (Some 1%positive, None) w
   /\ persistedQueryCheck (Some 2%positive) w = Done (Some 2%positive, None) w
   /\ Query <$> returned (persistedQueryCheck (Some 2%positive) w) = Some ""
   /\ Persisted <$> returned (persistedQueryCheck (Some 2%positive) w)
      = Some false)
  /\ persistedQueryCheck (Some 1%positive) w'
     = Panic InterfaceConversion
         (with_heap (<[1%positive := marked bare]> (heap w')) w').
Proof. repeat split; reflexivity. Qed.

(** C1, amended. Round trip: for every non-empty hash [h], a registration
    request (non-empty query [q], descriptor with [sha256Hash] [h] and a
    numeric [version]) returns without error, and a look-up request made
    next (empty query, descriptor with the same hash; the cache as the
    registration left it) returns a request whose query is [q] and whose
    [Persisted] flag is true. *)
Theorem register_then_lookup w l1 r1 values1 h v :
  h <> "" -> Query r1 <> "" ->
  heap w !! l1 = Some r1 -> carries_hash r1 values1 h ->
  values1 !! "version" = Some (IFloat64 v) ->
  exists w1,
    persistedQueryCheck (Some l1) w = Done (Some l1, None) w1
    /\ forall w1' l2 r2 values2,
         cache w1' = cache w1 ->
         heap w1' !! l2 = Some r2 -> Query r2 = "" ->
         carries_hash r2 values2 h ->
         exists w2 r2',
           persistedQueryCheck (Some l2) w1' = Done (Some l2, None) w2
           /\ heap w2 !! l2 = Some r2'
           /\ Query r2' = Query r1 /\ Persisted r2' = true.
Proof.
  intros Hne Hq Hl1 Hr1 Hv. eexists. split.
  - exact (check_register _ _ _ _ _ _ Hl1 Hq Hr1 Hne Hv).
  - intros w1' l2 r2 values2 Hc Hl2 Hq2 Hr2.
    apply (check_lookup_of_registered _ l2 r2 values2 h (entry_of r1 h v));
      try done.
    rewrite Hc. cbn [cache with_cache]. apply lookup_insert_eq.
Qed.

(** The first two requests of the end-to-end exchange. *)
Lemma register_then_lookup_witness :
  let reg := request "{ hello }" (persisted (descriptor "abc123" one)) in
  let look := request "" (persisted (descriptor "abc123" one)) in
  let w := world_of [reg; look] in
  exists w1,
    persistedQueryCheck (Some 1%positive) w = Done (Some 1%positive, None) w1
    /\ exists w2 r2',
         persistedQueryCheck (Some 2%positive) w1
           = Done (Some 2%positive, None) w2
         /\ heap w2 !! 2%positive = Some r2'
         /\ Query r2' = "{ hello }" /\ Persisted r2' = true.
Proof.
  intros reg look w.
  assert (Hc : forall q, carries_hash
            (request q (persisted (descriptor "abc123" one)))
            (descriptor "abc123" one) "abc123")
    by (intros q; eexists; repeat split; reflexivity).
  destruct (register_then_lookup w 1%positive reg (descriptor "abc123" one)
              "abc123" 1%float) as (w1 & Hrun & Hnext).
  - discriminate.
  - discriminate.
  - reflexivity.
  - apply Hc.
  - reflexivity.
  - exists w1. split; [exact Hrun|].
    apply (Hnext w1 2%positive look (descriptor "abc123" one));
      [reflexivity| |reflexivity|apply Hc].
    vm_compute in Hrun. injection Hrun as <-. reflexivity.
Defined.

(** C2. Lookup miss: a request with an empty query and a descriptor whose
    non-empty [sha256Hash] has no entry in the cache makes the resolver
    return an error whose text is, byte for byte, the error body of the wire
    contract; and a handler run on such a request ends after writing that
    body, without a call of [graphql.Do]. *)
Theorem lookup_miss_short_circuits w r values sha :
  Query r = "" -> carries_hash r values sha -> sha <> "" ->
  cache w !! sha = None ->
  (forall l, heap w !! l = Some r ->
     exists e w',
       persistedQueryCheck (Some l) w = Done (None, Some e) w'
       /\ bytes_of (Error e) = not_found_wire_body)
  /\ (forall NewRequestOptions Result graphql_Do len_Errors format_Errors
             json_Marshal json_MarshalIndent h req,
        NewRequestOptions req = r ->
        exists w',
          ContextHandler NewRequestOptions Result graphql_Do len_Errors
            format_Errors json_Marshal json_MarshalIndent h req w
          = Done tt w'
          /\ bytes_of PersistedQueryNotFound = not_found_wire_body
          /\ trace w'
             = (trace w ++ [HeaderSet "Content-Type" "application/json";
                            Write PersistedQueryNotFound])%list
          /\ (forall ev, ev ∈ drop (length (trace w)) (trace w') ->
                is_GraphqlDo ev = false)).
Proof.
  intros Hq Hr Hne Hc. split.
  - intros l Hl. eexists _, _. split.
    + exact (check_lookup_miss _ _ _ _ _ Hl Hq Hr Hne Hc).
    + reflexivity.
  - intros decode Result run len_Errors format_Errors marshal marshal_indent
      h req Hreq.
    unfold ContextHandler, bind at 1, new. cbv zeta. rewrite Hreq.
    set (l := fresh (dom (heap w))).
    set (w1 := with_heap (<[l := r]> (heap w)) w).
    assert (Hl : heap w1 !! l = Some r) by apply lookup_insert_eq.
    unfold bind at 1.
    rewrite (check_lookup_miss w1 l r values sha Hl Hq Hr Hne Hc).
    cbn [snd]. unfold bind, emit. cbn [trace with_trace with_heap].
    eexists. split; [reflexivity|]. split; [reflexivity|]. cbn [trace].
    rewrite <- app_assoc. split; [reflexivity|].
    cbn [trace with_trace]. change (trace w1) with (trace w).
    rewrite drop_app_length. intros ev Hev.
    apply elem_of_cons in Hev as [->|Hev]; [done|].
    apply elem_of_cons in Hev as [->|Hev]; [done|].
    by apply elem_of_nil in Hev.
Qed.

(** The third request of the end-to-end exchange: hash [unknown999], no
    query, through a handler that would otherwise go on to execute. *)
Lemma lookup_miss_short_circuits_witness :
  let r := request "" (persisted (descriptor "unknown999" one)) in
  let w := world_of [r] in
  (exists e w',
     persistedQueryCheck (Some 1%positive) w = Done (None, Some e) w'
     /\ bytes_of (Error e) = not_found_wire_body)
  /\ (exists w',
        ContextHandler (fun _ => r) unit (fun _ => tt) (fun _ => 0) id
          (fun _ => "{}") (fun _ => "{}") sample_handler
          (mkRequest "POST" "application/json" false) w
        = Done tt w'
        /\ trace w' = [HeaderSet "Content-Type" "application/json";
                       Write PersistedQueryNotFound]).
Proof.
  intros r w.
  destruct (lookup_miss_short_circuits w r (descriptor "unknown999" one)
              "unknown999") as [Hcheck Hhandle].
  - reflexivity.
  - eexists. repeat split; reflexivity.
  - discriminate.
  - reflexivity.
  - split.
    + exact (Hcheck 1%positive eq_refl).
    + destruct (Hhandle (fun _ => r) unit (fun _ => tt) (fun _ => 0) id
                  (fun _ => "{}") (fun _ => "{}") sample_handler
                  (mkRequest "POST" "application/json" false) eq_refl)
        as (w' & Hrun & _ & Htrace & _).
      exists w'. exact (conj Hrun Htrace).
Defined.

(** C3, as stated, fails on a request that enters with a flag set, which is
    what [json.Unmarshal] leaves when the body names the exported fields
    [Persisted] and [HasPersistedParams]. Such a request without extensions
    is passed through and comes back with both flags true. *)
Lemma pass_through_keeps_set_flags :
  let r := set_HasPersistedParams true
             (set_Persisted true (request "{ hello }" None)) in
  let out := persistedQueryCheck (Some 1%positive) (world_of [r]) in
  not_persisted r
  /\ out = Done (Some 1%positive, None) (world_of [r])
  /\ HasPersistedParams <$> returned out = Some true
  /\ Persisted <$> returned out = Some true.
Proof. split; [by left | repeat split; reflexivity]. Qed.

(** C3, amended. Pass-through: a request without extensions, without a
    [persistedQuery] descriptor, or with a descriptor whose [sha256Hash] is
    the empty string comes back as it was (same pointer, same contents) with
    no error, and the cache is the one from before the call. Neither flag
    is written: [HasPersistedParams] and [Persisted] come back as they were
    on entry, so both are false on return for a request that enters with
    them false. *)
Theorem pass_through_unchanged w l r :
  heap w !! l = Some r -> not_persisted r ->
  let out := persistedQueryCheck (Some l) w in
  out = Done (Some l, None) w
  /\ returned out = Some r
  /\ failure out = None
  /\ cache (final_world out) = cache w
  /\ HasPersistedParams <$> returned out = Some (HasPersistedParams r)
  /\ Persisted <$> returned out = Some (Persisted r)
  /\ (unmarked r ->
      HasPersistedParams <$> returned out = Some false
      /\ Persisted <$> returned out = Some false).
Proof.
  intros Hl Hr out. subst out.
  rewrite (check_not_persisted _ _ _ Hl Hr). cbn [returned failure final_world].
  rewrite Hl. do 6 (split; [reflexivity|]).
  intros [Hp Hh]. cbn. by rewrite Hp, Hh.
Qed.

Lemma pass_through_unchanged_witness :
  let r := request "{ hello }" (persisted (descriptor "" one)) in
  let out := persistedQueryCheck (Some 1%positive) (world_of [r]) in
  out = Done (Some 1%positive, None) (world_of [r])
  /\ returned out = Some r
  /\ failure out = None
  /\ cache (final_world out) = cache (world_of [r])
  /\ HasPersistedParams <$> returned out = Some false
  /\ Persisted <$> returned out = Some false.
Proof.
  intros r.
  destruct (pass_through_unchanged (world_of [r]) 1%positive r)
    as (H1 & H2 & H3 & H4 & _ & _ & H5).
  - reflexivity.
  - right. right.
    exists (descriptor "" one), {[ "persistedQuery" := IMap (descriptor "" one) ]}.
    repeat split; reflexivity.
  - intros out.
    exact (conj H1 (conj H2 (conj H3 (conj H4 (H5 (conj eq_refl eq_refl)))))).
Defined.

(** C4, as stated, fails: a registration request (non-empty query, hash
    [abc123]) whose descriptor has no [version], or a string for it, makes
    [persistedQueryCheck] itself stop in a failed type assertion, after the
    request was marked. *)
Lemma registration_without_version_faults :
  let r1 := request "{ hello }"
              (persisted {[ "sha256Hash" := IString "abc123" ]}) in
  let r2 := request "{ hello }"
              (persisted (descriptor "abc123" (IString "1"))) in
  let w := world_of [r1; r2] in
  persistedQueryCheck (Some 1%positive) w
    = Panic InterfaceConversion
        (with_heap (<[1%positive := marked r1]> (heap w)) w)
  /\ persistedQueryCheck (Some 2%positive) w
    = Panic InterfaceConversion
        (with_heap (<[2%positive := marked r2]> (heap w)) w).
Proof. split; reflexivity. Qed.

(** C4, amended. On a request carrying a descriptor with a non-empty
    [sha256Hash], the resolver faults exactly when the request is a
    registration (non-empty query) and [version] is missing or is not a
    number; the fault is then the failed type assertion on [version], raised
    inside [persistedQueryCheck] after the request was marked and before
    anything is stored. A look-up (empty query) never reads [version] and
    never faults. *)
Theorem version_faults_only_on_registration w l r values sha :
  heap w !! l = Some r -> carries_hash r values sha -> sha <> "" ->
  let out := persistedQueryCheck (Some l) w in
  panics out
  = negb (str_empty (Query r)) && negb (is_float64 (index_iface values "version"))
  /\ (panics out = true ->
      out = Panic InterfaceConversion
              (with_heap (<[l := marked r]> (heap w)) w)).
Proof.
  intros Hl Hr Hne out. subst out.
  rewrite (check_marks _ _ _ _ _ Hl Hr Hne). cbv zeta.
  destruct (str_empty (Query r)).
  - destruct (str_empty (query _)); cbn; split; done.
  - destruct (index_iface values "version"); cbn; split; done.
Qed.

Lemma version_faults_only_on_registration_witness :
  let lookup := request "" (persisted {[ "sha256Hash" := IString "abc123" ]}) in
  let register := request "{ hello }"
                    (persisted {[ "sha256Hash" := IString "abc123" ]}) in
  let w := world_of [lookup; register] in
  panics (persistedQueryCheck (Some 1%positive) w) = false
  /\ panics (persistedQueryCheck (Some 2%positive) w) = true.
Proof.
  intros lookup register w.
  assert (Hc : forall q, carries_hash
            (request q (persisted {[ "sha256Hash" := IString "abc123" ]}))
            {[ "sha256Hash" := IString "abc123" ]} "abc123")
    by (intros q; eexists; repeat split; reflexivity).
  assert (Hne : "abc123" <> "") by discriminate.
  split.
  - exact (proj1 (version_faults_only_on_registration w 1%positive lookup
                    _ "abc123" eq_refl (Hc _) Hne)).
  - exact (proj1 (version_faults_only_on_registration w 2%positive register
                    _ "abc123" eq_refl (Hc _) Hne)).
Defined.

(** C5, as stated, fails in the same two ways as the round trip. With the
    empty string as the hash, the two registrations and the look-up all pass
    through, and the look-up does not return the second query. With hash
    [abc123] but no [version], the first registration already faults. *)
Lemma last_write_needs_hash_and_version :
  let reg1 := request "{ hello }" (persisted (descriptor "" one)) in
  let reg2 := request "{ bye }" (persisted (descriptor "" one)) in
  let look := request "" (persisted (descriptor "" one)) in
  let w := world_of [reg1; reg2; look] in
  let bare := request "{ hello }"
                (persisted {[ "sha256Hash" := IString "abc123" ]}) in
  let w' := world_of [bare] in
  (persistedQueryCheck (Some 1%positive) w = Done (Some 1%positive, None) w
   /\ persistedQueryCheck (Some 2%positive) w = Done (Some 2%positive, None) w
   /\ persistedQueryCheck (Some 3%positive) w = Done (Some 3%positive, None) w
   /\ Query <$> returned (persistedQueryCheck (Some 3%positive) w) = Some "")
  /\ panics (persistedQueryCheck (Some 1%positive) w') = true.
Proof. repeat split; reflexivity. Qed.

(** C5, amended. Last write wins: for every non-empty hash [h], two
    registration requests in a row under [h] (non-empty queries [q1] then
    [q2], each descriptor with a numeric [version]) both return without
    error, the entry under [h] is then the second one, and a look-up made
    next (empty query, same hash) returns a request whose query is [q2].
    "In a row": each call finds the cache as the call before left it. *)
Theorem last_write_wins w l1 r1 values1 h v1 :
  h <> "" -> Query r1 <> "" ->
  heap w !! l1 = Some r1 -> carries_hash r1 values1 h ->
  values1 !! "version" = Some (IFloat64 v1) ->
  exists w1,
    persistedQueryCheck (Some l1) w = Done (Some l1, None) w1
    /\ forall w1' l2 r2 values2 v2,
         cache w1' = cache w1 ->
         heap w1' !! l2 = Some r2 -> Query r2 <> "" ->
         carries_hash r2 values2 h ->
         values2 !! "version" = Some (IFloat64 v2) ->
         exists w2,
           persistedQueryCheck (Some l2) w1' = Done (Some l2, None) w2
           /\ cache w2 !! h = Some (entry_of r2 h v2)
           /\ forall w2' l3 r3 values3,
                cache w2' = cache w2 ->
                heap w2' !! l3 = Some r3 -> Query r3 = "" ->
                carries_hash r3 values3 h ->
                exists w3 r3',
                  persistedQueryCheck (Some l3) w2' = Done (Some l3, None) w3
                  /\ heap w3 !! l3 = Some r3'
                  /\ Query r3' = Query r2 /\ Persisted r3' = true.
Proof.
  intros Hne Hq1 Hl1 Hr1 Hv1. eexists. split.
  - exact (check_register _ _ _ _ _ _ Hl1 Hq1 Hr1 Hne Hv1).
  - intros w1' l2 r2 values2 v2 _ Hl2 Hq2 Hr2 Hv2. eexists. split.
    + exact (check_register _ _ _ _ _ _ Hl2 Hq2 Hr2 Hne Hv2).
    + cbn [cache with_cache]. split; [apply lookup_insert_eq|].
      intros w2' l3 r3 values3 Hc Hl3 Hq3 Hr3.
      apply (check_lookup_of_registered _ l3 r3 values3 h
               (entry_of r2 h v2)); try done.
      rewrite Hc. apply lookup_insert_eq.
Qed.

Lemma last_write_wins_witness :
  let reg1 := request "{ hello }" (persisted (descriptor "abc123" one)) in
  let reg2 := request "{ bye }" (persisted (descriptor "abc123" one)) in
  let look := request "" (persisted (descriptor "abc123" one)) in
  let w := world_of [reg1; reg2; look] in
  exists w1,
    persistedQueryCheck (Some 1%positive) w = Done (Some 1%positive, None) w1
    /\ exists w2,
         persistedQueryCheck (Some 2%positive) w1
           = Done (Some 2%positive, None) w2
         /\ exists w3 r3',
              persistedQueryCheck (Some 3%positive) w2
                = Done (Some 3%positive, None) w3
              /\ heap w3 !! 3%positive = Some r3'
              /\ Query r3' = "{ bye }" /\ Persisted r3' = true.
Proof.
  intros reg1 reg2 look w.
  assert (Hc : forall q, carries_hash
            (request q (persisted (descriptor "abc123" one)))
            (descriptor "abc123" one) "abc123")
    by (intros q; eexists; repeat split; reflexivity).
  destruct (last_write_wins w 1%positive reg1 (descriptor "abc123" one)
              "abc123" 1%float) as (w1 & Hrun1 & Hnext1).
  - discriminate.
  - discriminate.
  - reflexivity.
  - apply Hc.
  - reflexivity.
  - exists w1. split; [exact Hrun1|].
    destruct (Hnext1 w1 2%positive reg2 (descriptor "abc123" one) 1%float)
      as (w2 & Hrun2 & _ & Hnext2).
    + reflexivity.
    + pose proof Hrun1 as Hw1. vm_compute in Hw1. injection Hw1 as <-.
      reflexivity.
    + discriminate.
    + apply Hc.
    + reflexivity.
    + exists w2. split; [exact Hrun2|].
      apply (Hnext2 w2 3%positive look (descriptor "abc123" one));
        [reflexivity| |reflexivity|apply Hc].
      pose proof Hrun1 as Hw1. vm_compute in Hw1. injection Hw1 as <-.
      pose proof Hrun2 as Hw2. vm_compute in Hw2. injection Hw2 as <-.
      reflexivity.
Defined.

(** C6. Malformed extensions shape: when [persistedQuery] is present but is
    not an object, or is an object whose [sha256Hash] is absent or not a
    string, the call does not return at all (neither the request nor an
    error value): it stops in a failed type assertion, before anything was
    written. *)
Theorem malformed_shape_faults w l r :
  heap w !! l = Some r -> malformed_descriptor r ->
  let out := persistedQueryCheck (Some l) w in
  out = Panic InterfaceConversion w
  /\ (forall a w', out <> Done a w')
  /\ returned out = None /\ failure out = None.
Proof.
  intros Hl Hr out. subst out. rewrite (check_malformed _ _ _ Hl Hr).
  repeat split; congruence.
Qed.

(** The three malformed shapes of the claim, on requests a JSON body can
    produce: [persistedQuery] a string, [sha256Hash] missing, [sha256Hash] a
    number. *)
Lemma malformed_shape_faults_witness :
  let r1 := request "{ hello }" (Some {[ "persistedQuery" := IString "abc123" ]}) in
  let r2 := request "{ hello }" (persisted {[ "version" := one ]}) in
  let r3 := request "{ hello }" (persisted {[ "sha256Hash" := one ]}) in
  let w := world_of [r1; r2; r3] in
  persistedQueryCheck (Some 1%positive) w = Panic InterfaceConversion w
  /\ persistedQueryCheck (Some 2%positive) w = Panic InterfaceConversion w
  /\ persistedQueryCheck (Some 3%positive) w = Panic InterfaceConversion w.
Proof.
  intros r1 r2 r3 w.
  split; [|split].
  - apply (malformed_shape_faults w 1%positive r1); [reflexivity|].
    eexists. split; [reflexivity | exact I].
  - apply (malformed_shape_faults w 2%positive r2); [reflexivity|].
    eexists. split; [reflexivity | exact I].
  - apply (malformed_shape_faults w 3%positive r3); [reflexivity|].
    eexists. split; [reflexivity | exact I].
Defined.

(** C7. Registration frame: on a request with a non-empty query, a
    descriptor with a non-empty [sha256Hash] and a numeric [version], the
    call returns the pointer it was given and no error; behind it, [Query],
    [OperationName] and [Variables] (and [Extensions]) are as before,
    [Persisted] is still false and [HasPersistedParams] is now true. The
    only other change is the entry stored under the hash. *)
Theorem registration_frame w l r values sha v :
  heap w !! l = Some r -> Query r <> "" ->
  carries_hash r values sha -> sha <> "" ->
  values !! "version" = Some (IFloat64 v) ->
  Persisted r = false ->
  let out := persistedQueryCheck (Some l) w in
  out = Done (Some l, None)
          (with_cache (<[sha := entry_of r sha v]> (cache w))
             (with_heap (<[l := marked r]> (heap w)) w))
  /\ failure out = None
  /\ exists r', returned out = Some r'
       /\ Query r' = Query r
       /\ OperationName r' = OperationName r
       /\ Variables r' = Variables r
       /\ Extensions r' = Extensions r
       /\ Persisted r' = false
       /\ HasPersistedParams r' = true.
Proof.
  intros Hl Hq Hr Hne Hv Hp out. subst out.
  rewrite (check_marks _ _ _ _ _ Hl Hr Hne). cbv zeta.
  apply str_empty_false in Hq. rewrite Hq, (index_iface_Some _ _ _ Hv).
  split; [reflexivity|]. split; [reflexivity|].
  exists (marked r). cbn [returned heap with_cache with_heap].
  rewrite lookup_insert_eq. by repeat split.
Qed.

Lemma registration_frame_witness :
  let r := request "{ hello }" (persisted (descriptor "abc123" one)) in
  let out := persistedQueryCheck (Some 1%positive) (world_of [r]) in
  failure out = None
  /\ exists r', returned out = Some r'
       /\ Query r' = "{ hello }"
       /\ OperationName r' = ""
       /\ Variables r' = None
       /\ Extensions r' = persisted (descriptor "abc123" one)
       /\ Persisted r' = false
       /\ HasPersistedParams r' = true.
Proof.
  intros r.
  refine (proj2 (registration_frame (world_of [r]) 1%positive r
                   (descriptor "abc123" one) "abc123" 1%float _ _ _ _ _ _)).
  - reflexivity.
  - discriminate.
  - eexists. repeat split; reflexivity.
  - discriminate.
  - reflexivity.
  - reflexivity.
Defined.

(** C8. Cache monotonicity: whatever the pointer and the world, and whether
    the call returns or faults, every hash that had an entry before the call
    has one after it. *)
Theorem cache_keys_kept opts w k :
  is_Some (cache w !! k) ->
  is_Some (cache (final_world (persistedQueryCheck opts w)) !! k).
Proof.
  intros Hk.
  destruct (check_cache opts w) as [-> | (sha & e & ->)]; [done|].
  destruct (decide (sha = k)) as [->|Hne].
  - rewrite lookup_insert_eq. by eexists.
  - by rewrite lookup_insert_ne.
Qed.

Lemma cache_keys_kept_witness :
  let r := request "{ bye }" (persisted (descriptor "abc123" one)) in
  let e := entry_of (request "{ hello }" None) "abc123" 1%float in
  let w := with_cache {[ "abc123" := e ]} (world_of [r]) in
  is_Some (cache w !! "abc123")
  /\ is_Some (cache (final_world (persistedQueryCheck (Some 1%positive) w))
              !! "abc123").
Proof.
  intros r e w.
  assert (Hk : is_Some (cache w !! "abc123")) by (eexists; reflexivity).
  split; [exact Hk|].
  exact (cache_keys_kept (Some 1%positive) w "abc123" Hk).
Defined.

(** C10. The error path does not preserve state: whenever the call returns
    an error, the error is the not-found one, the returned pointer is nil
    rather than the request, and the request behind the caller's pointer
    has been written to all the same: it is the old one with
    [HasPersistedParams] set to true. (The cache is untouched.) *)
Theorem miss_returns_nil_after_marking w l r p e w' :
  heap w !! l = Some r ->
  persistedQueryCheck (Some l) w = Done (p, Some e) w' ->
  p = None
  /\ e = errors_New PersistedQueryNotFound
  /\ heap w' !! l = Some (marked r)
  /\ HasPersistedParams <$> heap w' !! l = Some true
  /\ w' = with_heap (<[l := marked r]> (heap w)) w
  /\ cache w' = cache w.
Proof.
  intros Hl Hout.
  destruct (request_shapes r) as [Hr | [Hr | (values & sha & Hr & Hne)]].
  - rewrite (check_not_persisted _ _ _ Hl Hr) in Hout. discriminate.
  - rewrite (check_malformed _ _ _ Hl Hr) in Hout. discriminate.
  - rewrite (check_marks _ _ _ _ _ Hl Hr Hne) in Hout. cbv zeta in Hout.
    destruct (str_empty (Query r)).
    + destruct (str_empty (query _)); [|discriminate].
      injection Hout as <- <- <-. cbn [heap with_heap cache].
      rewrite lookup_insert_eq. done.
    + destruct (index_iface values "version"); discriminate.
Qed.

Lemma miss_returns_nil_after_marking_witness :
  let r := request "" (persisted (descriptor "unknown999" one)) in
  let w := world_of [r] in
  let w' := with_heap (<[1%positive := marked r]> (heap w)) w in
  persistedQueryCheck (Some 1%positive) w
    = Done (None, Some (errors_New PersistedQueryNotFound)) w'
  /\ heap w' !! 1%positive = Some (marked r)
  /\ HasPersistedParams <$> heap w' !! 1%positive = Some true
  /\ cache w' = cache w.
Proof.
  intros r w w'.
  assert (Hrun : persistedQueryCheck (Some 1%positive) w
                 = Done (None, Some (errors_New PersistedQueryNotFound)) w')
    by reflexivity.
  split; [exact Hrun|].
  destruct (miss_returns_nil_after_marking w 1%positive r None
              (errors_New PersistedQueryNotFound) w' eq_refl Hrun)
    as (_ & _ & H3 & H4 & _ & H6).
  exact (conj H3 (conj H4 H6)).
Defined.

(** ** Further properties of the resolver *)

(** On a hit, the request comes back filled from the cached entry: the query
    text and also the operation name are the entry's (whatever operation
    name the look-up request carried), both flags are set, variables and
    extensions are the request's own; the cache is only read. *)
Theorem lookup_hit_fills_from_entry w l r values sha e :
  heap w !! l = Some r -> Query r = "" ->
  carries_hash r values sha -> sha <> "" ->
  cache w !! sha = Some e -> query e <> "" ->
  exists w' r',
    persistedQueryCheck (Some l) w = Done (Some l, None) w'
    /\ heap w' !! l = Some r'
    /\ Query r' = query e
    /\ OperationName r' = operationName e
    /\ Persisted r' = true /\ HasPersistedParams r' = true
    /\ Variables r' = Variables r /\ Extensions r' = Extensions r
    /\ cache w' = cache w.
Proof.
  intros Hl Hq Hr Hne Hc He.
  eexists _, (resolved e r). split.
  - exact (check_lookup_hit _ _ _ _ _ _ Hl Hq Hr Hne Hc He).
  - cbn [heap with_heap cache]. rewrite lookup_insert_eq. done.
Qed.

Lemma lookup_hit_fills_from_entry_witness :
  let r := set_OperationName "Mine"
             (request "" (persisted (descriptor "abc123" one))) in
  let e := {| operationName := "Hello"; query := "query Hello { hello }";
              sha256Hash := "abc123"; version := 1%float |} in
  let w := with_cache {[ "abc123" := e ]} (world_of [r]) in
  exists w' r',
    persistedQueryCheck (Some 1%positive) w = Done (Some 1%positive, None) w'
    /\ heap w' !! 1%positive = Some r'
    /\ Query r' = "query Hello { hello }"
    /\ OperationName r' = "Hello".
Proof.
  intros r e w.
  destruct (lookup_hit_fills_from_entry w 1%positive r
              (descriptor "abc123" one) "abc123" e)
    as (w' & r' & H1 & H2 & H3 & H4 & _).
  - reflexivity.
  - reflexivity.
  - eexists. repeat split; reflexivity.
  - discriminate.
  - reflexivity.
  - discriminate.
  - exists w', r'. exact (conj H1 (conj H2 (conj H3 H4))).
Defined.

(** The four ways a call on a live request can end, with the world each
    leaves. *)
Lemma check_outcomes w l r :
  heap w !! l = Some r ->
  let out := persistedQueryCheck (Some l) w in
  (not_persisted r /\ out = Done (Some l, None) w)
  \/ (malformed_descriptor r /\ out = Panic InterfaceConversion w)
  \/ (exists values sha,
        carries_hash r values sha /\ sha <> "" /\
        let w1 := with_heap (<[l := marked r]> (heap w)) w in
        let e := default zeroCacheEntry (cache w !! sha) in
        (Query r = "" /\ query e = ""
         /\ out = Done (None, Some (errors_New PersistedQueryNotFound)) w1)
        \/ (Query r = "" /\ query e <> ""
            /\ out = Done (Some l, None)
                       (with_heap (<[l := resolved e r]> (heap w)) w))
        \/ (Query r <> "" /\ is_float64 (index_iface values "version") = false
            /\ out = Panic InterfaceConversion w1)
        \/ (exists v, Query r <> ""
            /\ index_iface values "version" = IFloat64 v
            /\ out = Done (Some l, None)
                       (with_cache (<[sha := entry_of r sha v]> (cache w)) w1))).
Proof.
  intros Hl out. subst out.
  destruct (request_shapes r) as [Hr | [Hr | (values & sha & Hr & Hne)]].
  - left. split; [done|]. exact (check_not_persisted _ _ _ Hl Hr).
  - right. left. split; [done|]. exact (check_malformed _ _ _ Hl Hr).
  - right. right. exists values, sha. split; [done|]. split; [done|].
    rewrite (check_marks _ _ _ _ _ Hl Hr Hne). cbv zeta.
    destruct (str_empty (Query r)) eqn:Hq.
    + apply str_empty_true in Hq.
      destruct (str_empty (query _)) eqn:He.
      * apply str_empty_true in He. left. done.
      * apply str_empty_false in He. right. left. done.
    + apply str_empty_false in Hq.
      destruct (index_iface values "version") as [| |v| | |] eqn:Hv;
        try (right; right; left; done).
      right. right. right. exists v. done.
Qed.

(** Whatever the outcome, the request is still behind the pointer. *)
Lemma check_request_live w l r :
  heap w !! l = Some r ->
  exists r',
    heap (final_world (persistedQueryCheck (Some l) w)) !! l = Some r'
    /\ Variables r' = Variables r.
Proof.
  intros Hl.
  destruct (check_outcomes w l r Hl)
    as [[_ ->] | [[_ ->] | (values & sha & Hr & Hne & Hcase)]];
    [exists r; done .. |].
  cbv zeta in Hcase.
  destruct Hcase as [(Hq & _ & ->) | [(Hq & _ & ->) | [(_ & _ & ->) |
                     (v & Hq & Hv & ->)]]];
    cbn [final_world heap with_heap with_cache]; rewrite lookup_insert_eq;
    eexists; (split; [reflexivity|]); done.
Qed.

(** What a call may store: nothing, or one entry that sits under its own
    non-empty hash and holds a non-empty query text. *)
Lemma check_cache_stores opts w :
  let w' := final_world (persistedQueryCheck opts w) in
  cache w' = cache w
  \/ exists sha e,
       cache w' = <[sha := e]> (cache w)
       /\ sha256Hash e = sha /\ sha <> "" /\ query e <> "".
Proof.
  destruct opts as [l|]; [|by left].
  destruct (heap w !! l) as [r|] eqn:Hl;
    [|rewrite (check_dangling _ _ Hl); by left].
  cbv zeta.
  destruct (check_outcomes w l r Hl)
    as [[_ ->] | [[_ ->] | (values & sha & Hr & Hne & Hcase)]];
    [by left .. |].
  cbv zeta in Hcase.
  destruct Hcase as [(_ & _ & ->) | [(_ & _ & ->) | [(_ & _ & ->) |
                     (v & Hq & Hv & ->)]]];
    [by left .. |].
  right. exists sha, (entry_of r sha v). done.
Qed.

(** A call leaves the trace and every other object of the heap alone. *)
Lemma check_heap_frame opts w :
  let w' := final_world (persistedQueryCheck opts w) in
  trace w' = trace w
  /\ forall l', opts <> Some l' -> heap w' !! l' = heap w !! l'.
Proof.
  destruct opts as [l|]; [|done].
  destruct (heap w !! l) as [r|] eqn:Hl;
    [|by rewrite (check_dangling _ _ Hl)].
  assert (Hother : forall x l', Some l <> Some l' ->
            <[l := x]> (heap w) !! l' = heap w !! l').
  { intros x l' Hne. apply lookup_insert_ne. congruence. }
  cbv zeta.
  destruct (check_outcomes w l r Hl)
    as [[_ ->] | [[_ ->] | (values & sha & Hr & Hne & Hcase)]];
    [done .. |].
  cbv zeta in Hcase.
  destruct Hcase as [(_ & _ & ->) | [(_ & _ & ->) | [(_ & _ & ->) |
                     (v & Hq & Hv & ->)]]];
    cbn [final_world trace heap with_heap with_cache]; auto.
Qed.

(** The cache is written by a completed registration and by nothing else:
    after any call it is the cache from before, or that with the one entry
    built from the request stored under the request's hash; a request with
    an empty query (a look-up, hit or miss) leaves it as it was. *)
Theorem cache_written_only_by_registration opts w :
  let w' := final_world (persistedQueryCheck opts w) in
  (cache w' = cache w
   \/ exists l r values sha v,
        opts = Some l /\ heap w !! l = Some r
        /\ carries_hash r values sha /\ sha <> "" /\ Query r <> ""
        /\ values !! "version" = Some (IFloat64 v)
        /\ cache w' = <[sha := entry_of r sha v]> (cache w))
  /\ (forall l r, opts = Some l -> heap w !! l = Some r -> Query r = "" ->
        cache w' = cache w).
Proof.
  destruct opts as [l|]; [|split; [by left | done]].
  destruct (heap w !! l) as [r|] eqn:Hl;
    [|rewrite (check_dangling _ _ Hl); split; [by left | done]].
  cbv zeta.
  destruct (check_outcomes w l r Hl)
    as [[_ ->] | [[_ ->] | (values & sha & Hr & Hne & Hcase)]];
    [split; [by left|done] .. |].
  cbv zeta in Hcase.
  destruct Hcase as [(_ & _ & ->) | [(_ & _ & ->) | [(_ & _ & ->) |
                     (v & Hq & Hv & ->)]]];
    [split; [by left|done] .. |].
  split.
  - right. exists l, r, values, sha, v. repeat split; try done.
    unfold index_iface in Hv.
    destruct (values !! "version") as [x|]; cbn in Hv; congruence.
  - intros l' r' Heq Hl' Hq'. injection Heq as Heq. subst l'. congruence.
Qed.

(** A call touches one request and nothing else on the heap: every other
    object is as before, no object appears or disappears, and nothing is
    written to the response. This holds whether the call returns, returns
    an error, or faults. *)
Theorem check_touches_one_request opts w :
  let w' := final_world (persistedQueryCheck opts w) in
  trace w' = trace w
  /\ dom (heap w') = dom (heap w)
  /\ forall l', opts <> Some l' -> heap w' !! l' = heap w !! l'.
Proof.
  destruct (check_heap_frame opts w) as [Ht Ho]. cbv zeta.
  split; [exact Ht|]. split; [|exact Ho].
  destruct opts as [l|]; [|done].
  apply set_eq. intros l'. rewrite !elem_of_dom.
  destruct (decide (l' = l)) as [->|Hne];
    [|rewrite Ho by congruence; done].
  destruct (heap w !! l) as [r|] eqn:Hl;
    [|rewrite (check_dangling _ _ Hl); cbn [final_world]; by rewrite Hl].
  destruct (check_request_live w l r Hl) as (r' & -> & _).
  split; eauto.
Qed.

(** The resolver keeps the cache well formed: if every entry sits under its
    own non-empty hash and holds a non-empty query text, the same is true
    after any call. The empty cache the package starts with is well
    formed. *)
Theorem cache_ok_kept opts w :
  cache_ok (cache w) ->
  cache_ok (cache (final_world (persistedQueryCheck opts w))).
Proof.
  intros Hok.
  destruct (check_cache_stores opts w) as [-> | (sha & e & -> & Hs & Hne & Hq)];
    [done|].
  intros k e' Hk.
  destruct (decide (sha = k)) as [->|Hk'].
  - rewrite lookup_insert_eq in Hk. injection Hk as <-. done.
  - rewrite lookup_insert_ne in Hk by done. by apply Hok.
Qed.

Lemma cache_ok_empty : cache_ok ∅.
Proof. intros k e Hk. by rewrite lookup_empty in Hk. Qed.

Lemma cache_ok_kept_witness :
  let r := request "{ hello }" (persisted (descriptor "abc123" one)) in
  let w := world_of [r] in
  cache_ok (cache (final_world (persistedQueryCheck (Some 1%positive) w)))
  /\ cache (final_world (persistedQueryCheck (Some 1%positive) w))
     = {[ "abc123" := entry_of r "abc123" 1%float ]}.
Proof.
  intros r w. split.
  - exact (cache_ok_kept (Some 1%positive) w cache_ok_empty).
  - reflexivity.
Defined.

(** In a well-formed cache the resolver's test for a miss (the looked-up
    entry has an empty query text) is exact: a look-up request returns the
    not-found error if and only if no entry is stored under its hash. *)
Theorem lookup_fails_iff_absent w l r values sha :
  cache_ok (cache w) ->
  heap w !! l = Some r -> Query r = "" ->
  carries_hash r values sha -> sha <> "" ->
  failure (persistedQueryCheck (Some l) w)
    = Some (errors_New PersistedQueryNotFound)
  <-> cache w !! sha = None.
Proof.
  intros Hok Hl Hq Hr Hne.
  rewrite (check_marks _ _ _ _ _ Hl Hr Hne). cbv zeta. rewrite Hq.
  cbn [str_empty].
  destruct (cache w !! sha) as [e|] eqn:Hc; cbn [default from_option id].
  - destruct (Hok _ _ Hc) as (_ & _ & He). apply str_empty_false in He.
    rewrite He. cbn. split; discriminate.
  - cbn. done.
Qed.

Lemma lookup_fails_iff_absent_witness :
  let r := request "" (persisted (descriptor "abc123" one)) in
  let e := entry_of (request "{ hello }" None) "abc123" 1%float in
  (failure (persistedQueryCheck (Some 1%positive) (world_of [r]))
     = Some (errors_New PersistedQueryNotFound)
   <-> cache (world_of [r]) !! "abc123" = None)
  /\ (failure (persistedQueryCheck (Some 1%positive)
                 (with_cache {[ "abc123" := e ]} (world_of [r])))
        = Some (errors_New PersistedQueryNotFound)
      <-> cache (with_cache {[ "abc123" := e ]} (world_of [r])) !! "abc123"
          = None).
Proof.
  intros r e.
  assert (Hc : carries_hash r (descriptor "abc123" one) "abc123")
    by (eexists; repeat split; reflexivity).
  assert (Hne : "abc123" <> "") by discriminate.
  split.
  - exact (lookup_fails_iff_absent (world_of [r]) 1%positive r _ "abc123"
             cache_ok_empty eq_refl eq_refl Hc Hne).
  - refine (lookup_fails_iff_absent
              (with_cache {[ "abc123" := e ]} (world_of [r])) 1%positive r _
              "abc123" _ eq_refl eq_refl Hc Hne).
    intros k e' Hk. cbn [cache with_cache] in Hk.
    apply lookup_singleton_Some in Hk as [<- <-]. repeat split; discriminate.
Defined.

(** What a call never rewrites. Whatever the outcome, the request keeps its
    variables and extensions; and a request that came with a query text
    keeps that text, its operation name and its [Persisted] flag: the
    client's own query is never replaced from the cache. *)
Theorem check_keeps_request_text w l r :
  heap w !! l = Some r ->
  exists r',
    heap (final_world (persistedQueryCheck (Some l) w)) !! l = Some r'
    /\ Variables r' = Variables r /\ Extensions r' = Extensions r
    /\ (Query r <> "" ->
        Query r' = Query r /\ OperationName r' = OperationName r
        /\ Persisted r' = Persisted r).
Proof.
  intros Hl.
  destruct (check_outcomes w l r Hl)
    as [[_ ->] | [[_ ->] | (values & sha & Hr & Hne & Hcase)]];
    [exists r; done .. |].
  cbv zeta in Hcase.
  destruct Hcase as [(Hq & _ & ->) | [(Hq & _ & ->) | [(_ & _ & ->) |
                     (v & Hq & Hv & ->)]]];
    cbn [final_world heap with_heap with_cache]; rewrite lookup_insert_eq;
    eexists; (split; [reflexivity|]); done.
Qed.

Lemma check_keeps_request_text_witness :
  let r := request "{ hello }" (persisted (descriptor "abc123" one)) in
  let e := entry_of (request "{ bye }" None) "abc123" 1%float in
  let w := with_cache {[ "abc123" := e ]} (world_of [r]) in
  exists r',
    heap (final_world (persistedQueryCheck (Some 1%positive) w)) !! 1%positive
      = Some r'
    /\ Query r' = "{ hello }".
Proof.
  intros r e w.
  destruct (check_keeps_request_text w 1%positive r eq_refl)
    as (r' & H1 & _ & _ & H4).
  exists r'. split; [exact H1|].
  exact (proj1 (H4 ltac:(discriminate))).
Defined.

(** Registering is idempotent: a registration call repeated on the same
    request, in the world the first call left, returns the same and leaves
    that world as it is. *)
Theorem registration_idempotent w l r values sha v :
  heap w !! l = Some r -> Query r <> "" ->
  carries_hash r values sha -> sha <> "" ->
  values !! "version" = Some (IFloat64 v) ->
  exists w1,
    persistedQueryCheck (Some l) w = Done (Some l, None) w1
    /\ persistedQueryCheck (Some l) w1 = Done (Some l, None) w1.
Proof.
  intros Hl Hq Hr Hne Hv. eexists. split.
  - exact (check_register _ _ _ _ _ _ Hl Hq Hr Hne Hv).
  - set (w1 := with_cache _ _).
    assert (Hl1 : heap w1 !! l = Some (marked r)) by apply lookup_insert_eq.
    rewrite (check_register w1 l (marked r) values sha v Hl1 Hq Hr Hne Hv).
    f_equal. subst w1. unfold with_cache, with_heap. cbn.
    by rewrite !insert_insert_eq.
Qed.

Lemma registration_idempotent_witness :
  let r := request "{ hello }" (persisted (descriptor "abc123" one)) in
  exists w1,
    persistedQueryCheck (Some 1%positive) (world_of [r])
      = Done (Some 1%positive, None) w1
    /\ persistedQueryCheck (Some 1%positive) w1
       = Done (Some 1%positive, None) w1.
Proof.
  intros r.
  apply (registration_idempotent (world_of [r]) 1%positive r
           (descriptor "abc123" one) "abc123" 1%float).
  - reflexivity.
  - discriminate.
  - eexists. repeat split; reflexivity.
  - discriminate.
  - reflexivity.
Defined.

(** The shapes exclude one another. *)
Lemma carries_hash_inj r values sha values' sha' :
  carries_hash r values sha -> carries_hash r values' sha' ->
  values = values' /\ sha = sha'.
Proof.
  intros (ext & He & Hpq & Hs) (ext' & He' & Hpq' & Hs').
  assert (ext' = ext) by congruence. subst ext'.
  assert (values' = values) by congruence. subst values'.
  split; congruence.
Qed.

Lemma not_persisted_not_malformed r :
  not_persisted r -> malformed_descriptor r -> False.
Proof.
  intros Hn (ext & He & Hm).
  destruct Hn as [Hn | [(ext' & He' & Hnil) | (values & ext' & He' & Hpq & Hs)]].
  - congruence.
  - assert (ext' = ext) by congruence. subst ext'. by rewrite Hnil in Hm.
  - assert (ext' = ext) by congruence. subst ext'.
    rewrite (index_iface_Some _ _ _ Hpq), (index_iface_Some _ _ _ Hs) in Hm.
    done.
Qed.

Lemma not_persisted_no_hash r values sha :
  not_persisted r -> carries_hash r values sha -> sha = "".
Proof.
  intros Hn Hc.
  destruct Hn as [Hn | [(ext' & He' & Hnil) | (values' & Hc')]].
  - destruct Hc as (ext & He & _). congruence.
  - destruct Hc as (ext & He & Hpq & _).
    assert (ext' = ext) by congruence. subst ext'.
    rewrite (index_iface_Some _ _ _ Hpq) in Hnil. discriminate.
  - by destruct (carries_hash_inj _ _ _ _ _ Hc Hc') as [_ ->].
Qed.

Lemma malformed_no_hash r values sha :
  malformed_descriptor r -> carries_hash r values sha -> False.
Proof.
  intros (ext & He & Hm) (ext' & He' & Hpq & Hs).
  assert (ext' = ext) by congruence. subst ext'.
  rewrite (index_iface_Some _ _ _ Hpq), (index_iface_Some _ _ _ Hs) in Hm.
  done.
Qed.

(** When the resolver faults, and what it has done by then. *)
Lemma check_panics_iff w l r :
  heap w !! l = Some r ->
  let out := persistedQueryCheck (Some l) w in
  ((exists f w', out = Panic f w')
   <-> malformed_descriptor r \/ unversioned_registration r)
  /\ (forall f w', out = Panic f w' ->
        f = InterfaceConversion /\ trace w' = trace w /\ cache w' = cache w).
Proof.
  intros Hl out. subst out.
  destruct (check_outcomes w l r Hl)
    as [[Hn ->] | [[Hm ->] | (values & sha & Hr & Hne & Hcase)]].
  - split; [|intros ? ? [=]]. split; [intros (? & ? & [=])|].
    intros [Hm | (values & sha & Hc & Hne & _)].
    + destruct (not_persisted_not_malformed _ Hn Hm).
    + destruct (Hne (not_persisted_no_hash _ _ _ Hn Hc)).
  - split; [|by intros ? ? [= <- <-]]. split; [by left | eauto].
  - cbv zeta in Hcase.
    assert (Hbad : malformed_descriptor r \/ unversioned_registration r ->
                   Query r <> ""
                   /\ is_float64 (index_iface values "version") = false).
    { intros [Hm | (values' & sha' & Hc & _ & Hq & Hv)].
      - destruct (malformed_no_hash _ _ _ Hm Hr).
      - by destruct (carries_hash_inj _ _ _ _ _ Hr Hc) as [<- _]. }
    destruct Hcase as [(Hq & _ & ->) | [(Hq & _ & ->) | [(Hq & Hv & ->) |
                       (v & Hq & Hv & ->)]]].
    + split; [|intros ? ? [=]]. split; [intros (? & ? & [=])|].
      intros Hb. by destruct (Hbad Hb).
    + split; [|intros ? ? [=]]. split; [intros (? & ? & [=])|].
      intros Hb. by destruct (Hbad Hb).
    + split; [|by intros ? ? [= <- <-]]. split; [|eauto].
      intros _. right. by exists values, sha.
    + split; [|intros ? ? [=]]. split; [intros (? & ? & [=])|].
      intros Hb. destruct (Hbad Hb) as [_ Hv']. by rewrite Hv in Hv'.
Qed.

(** A call that returns without error returns the pointer it was given, and
    the request is still there. *)
Lemma check_success_live w l r p w1 :
  heap w !! l = Some r ->
  persistedQueryCheck (Some l) w = Done (p, None) w1 ->
  p = Some l /\ exists o, heap w1 !! l = Some o.
Proof.
  intros Hl Hout.
  destruct (check_outcomes w l r Hl)
    as [[_ E] | [[_ E] | (values & sha & _ & _ & Hcase)]].
  - rewrite E in Hout. injection Hout as <- <-. eauto.
  - rewrite E in Hout. discriminate.
  - cbv zeta in Hcase.
    destruct Hcase as [(_ & _ & E) | [(_ & _ & E) | [(_ & _ & E) |
                       (v & _ & _ & E)]]];
      rewrite E in Hout; try discriminate; injection Hout as <- <-;
      (split; [done|]); cbn [heap with_heap with_cache];
      rewrite lookup_insert_eq; eauto.
Qed.

Lemma check_error_is_not_found w l r p err w1 :
  heap w !! l = Some r ->
  persistedQueryCheck (Some l) w = Done (p, Some err) w1 ->
  err = errors_New PersistedQueryNotFound.
Proof.
  intros Hl Hout.
  destruct (check_outcomes w l r Hl)
    as [[_ E] | [[_ E] | (values & sha & _ & _ & Hcase)]].
  - rewrite E in Hout. discriminate.
  - rewrite E in Hout. discriminate.
  - cbv zeta in Hcase.
    destruct Hcase as [(_ & _ & E) | [(_ & _ & E) | [(_ & _ & E) |
                       (v & _ & _ & E)]]];
      rewrite E in Hout; try discriminate. by injection Hout as <- <- <-.
Qed.

Lemma world_with_lookup o w :
  heap (world_with o w) !! request_loc w = Some o.
Proof. apply lookup_insert_eq. Qed.

Lemma world_with_old o w l o' :
  heap w !! l = Some o' -> heap (world_with o w) !! l = Some o'.
Proof.
  intros Hl. unfold world_with. cbn [heap with_heap].
  rewrite lookup_insert_ne; [done|].
  intros <-. unfold request_loc in Hl.
  assert (Hin : fresh (dom (heap w)) ∈ dom (heap w))
    by (apply elem_of_dom; eauto).
  by apply is_fresh in Hin.
Qed.

Lemma new_events_app w w' es :
  trace w' = (trace w ++ es)%list -> new_events w w' = es.
Proof. intros H. unfold new_events. rewrite H. apply drop_app_length. Qed.

(** ** Runs of the handler *)

Section HandlerRuns.

Variable decode : Request -> RequestOptions.
Variable Result : Type.
Variable graphql_Do : Params -> Result.
Variable len_Errors : Result -> nat.
Variable format_Errors : Result -> Result.
Variable json_Marshal : Result -> string.
Variable json_MarshalIndent : Result -> string.

#[local] Abbreviation handle :=
  (ContextHandler decode Result graphql_Do len_Errors format_Errors
     json_Marshal json_MarshalIndent).
#[local] Abbreviation response :=
  (response_events Result graphql_Do len_Errors format_Errors
     json_Marshal json_MarshalIndent).

Lemma emit_run e w : emit e w = Done tt (with_trace (trace w ++ [e]) w).
Proof. reflexivity. Qed.

(** A run of the handler, by the outcome of the resolver on the decoded
    request. *)
Lemma handler_cases h req w :
  match persistedQueryCheck (Some (request_loc w)) (world_with (decode req) w)
  with
  | Panic f w' => handle h req w = Panic f w'
  | Done (_, Some err) w1 =>
      handle h req w
      = Done tt (with_trace
                   (trace w1 ++ [HeaderSet "Content-Type" "application/json";
                                 Write (Error err)]) w1)
  | Done (p, None) w1 =>
      if String.eqb (Method req) "OPTIONS"
      then handle h req w
           = Done tt (with_trace (trace w1 ++ [WriteHeader 204]) w1)
      else forall o, load p w1 = Done o w1 ->
           handle h req w
           = Done tt (with_trace
                        (trace w1 ++ GraphqlDo (params_of h req o)
                                     :: response h req (params_of h req o))
                        w1)
  end.
Proof.
  destruct (persistedQueryCheck _ _) as [[p [err|]] w1 | f w'] eqn:E.
  - unfold ContextHandler, bind at 1, new. cbv zeta.
    fold (request_loc w). fold (world_with (decode req) w).
    unfold bind at 1. rewrite E. cbn [snd].
    unfold bind, emit. cbn [trace with_trace]. rewrite <- app_assoc. done.
  - destruct (String.eqb (Method req) "OPTIONS") eqn:Hm.
    + unfold ContextHandler, bind at 1, new. cbv zeta.
      fold (request_loc w). fold (world_with (decode req) w).
      unfold bind at 1. rewrite E. cbn [snd fst]. rewrite Hm. reflexivity.
    + intros o Ho.
      unfold ContextHandler, bind at 1, new. cbv zeta.
      fold (request_loc w). fold (world_with (decode req) w).
      unfold bind at 1. rewrite E. cbn [snd fst]. rewrite Hm.
      unfold bind at 1. rewrite Ho.
      fold (params_of h req o). set (p0 := params_of h req o).
      unfold response_events, served_body, served_result, formats.
      unfold bind, emit, ret.
      destruct (formatErrorFn h && (0 <? len_Errors (graphql_Do p0))%nat);
        destruct (graphiql h && wants_html req);
        destruct (playground h && wants_html req);
        destruct (resultCallbackFn h);
        cbn [trace with_trace app]; rewrite <- ?app_assoc; reflexivity.
  - unfold ContextHandler, bind at 1, new. cbv zeta.
    fold (request_loc w). fold (world_with (decode req) w).
    unfold bind at 1. rewrite E. reflexivity.
Qed.

Lemma response_no_Do h req p :
  Forall (fun ev => is_GraphqlDo ev = false) (response h req p).
Proof.
  unfold response_events.
  destruct (formats _ _ _ h p), (graphiql h && wants_html req),
    (playground h && wants_html req), (resultCallbackFn h);
    cbn; repeat constructor.
Qed.

(** A run of the handler in full: where it stops and what it has appended to
    the trace, by the outcome of the resolver on the decoded request. *)
Lemma handler_outcome h req w :
  match persistedQueryCheck (Some (request_loc w)) (world_with (decode req) w)
  with
  | Panic f w' => handle h req w = Panic f w'
  | Done (_, Some _) w1 =>
      handle h req w
      = Done tt (with_trace
                   (trace w ++ [HeaderSet "Content-Type" "application/json";
                                Write PersistedQueryNotFound]) w1)
  | Done (_, None) w1 =>
      exists o,
        heap w1 !! request_loc w = Some o
        /\ handle h req w
           = Done tt (with_trace
                        (trace w ++
                         if String.eqb (Method req) "OPTIONS"
                         then [WriteHeader 204]
                         else GraphqlDo (params_of h req o)
                              :: response h req (params_of h req o)) w1)
  end.
Proof.
  pose proof (handler_cases h req w) as Hc.
  pose proof (check_heap_frame (Some (request_loc w))
                (world_with (decode req) w)) as (Ht & _).
  pose proof (world_with_lookup (decode req) w) as Hl.
  destruct (persistedQueryCheck _ _) as [[p [err|]] w1 | f w'] eqn:E;
    cbn [final_world] in Ht;
    change (trace (world_with (decode req) w)) with (trace w) in Ht;
    [| |done].
  - rewrite Hc, Ht. by rewrite (check_error_is_not_found _ _ _ _ _ _ Hl E).
  - destruct (check_success_live _ _ _ _ _ Hl E) as [-> [o Ho]].
    exists o. split; [done|]. rewrite <- Ht.
    destruct (String.eqb (Method req) "OPTIONS"); [done|].
    apply Hc. exact (load_heap _ _ _ Ho).
Qed.

(** The handler faults on the two kinds of request the resolver faults on:
    when the decoded request has a malformed descriptor, or is a
    registration whose [version] is no number, the run stops in the failed
    type assertion of the resolver. By then nothing was written to the
    response, the engine was not called and nothing was stored. *)
Theorem handler_faults_on_bad_descriptor h req w :
  malformed_descriptor (decode req)
  \/ unversioned_registration (decode req) ->
  exists w',
    handle h req w = Panic InterfaceConversion w'
    /\ trace w' = trace w /\ new_events w w' = []
    /\ cache w' = cache w.
Proof.
  intros Hbad. pose proof (handler_outcome h req w) as Hh.
  destruct (check_panics_iff (world_with (decode req) w) (request_loc w)
              (decode req) (world_with_lookup _ _)) as [Hiff Hwhen].
  cbv zeta in Hiff, Hwhen.
  apply Hiff in Hbad as (f & w' & E). rewrite E in Hh.
  destruct (Hwhen f w' E) as (-> & Ht & Hc).
  exists w'. split; [exact Hh|]. split; [exact Ht|]. split; [|exact Hc].
  apply new_events_app. rewrite Ht. by rewrite app_nil_r.
Qed.

(** The three ways a completed run answers. *)
Lemma handler_done_cases h req w w' :
  handle h req w = Done tt w' ->
  new_events w w' = [HeaderSet "Content-Type" "application/json";
                     Write PersistedQueryNotFound]
  \/ (Method req = "OPTIONS" /\ new_events w w' = [WriteHeader 204])
  \/ (Method req <> "OPTIONS"
      /\ exists o,
           heap w' !! request_loc w = Some o
           /\ new_events w w'
              = GraphqlDo (params_of h req o)
                :: response h req (params_of h req o)).
Proof.
  intros Hrun. pose proof (handler_outcome h req w) as Hh.
  destruct (persistedQueryCheck _ _) as [[p [err|]] w1 | f w0] eqn:E.
  - rewrite Hh in Hrun. injection Hrun as <-. left.
    by apply new_events_app.
  - destruct Hh as (o & Ho & Hh). rewrite Hh in Hrun. injection Hrun as <-.
    right. destruct (String.eqb (Method req) "OPTIONS") eqn:Hm.
    + apply String.eqb_eq in Hm. left. split; [done|].
      by apply new_events_app.
    + apply String.eqb_neq in Hm. right. split; [done|].
      exists o. split; [done|]. by apply new_events_app.
  - rewrite Hh in Hrun. discriminate.
Qed.

(** The engine is called at most once per request, and first: if a completed
    run called [graphql.Do] on [p] at all, that call is the first new event
    and the rest is the response to it. When the handler does not render a
    page, that response is the JSON one: the errors formatted if need be,
    the content type, status 200 whatever the result holds, the serialized
    result, and the callback (if set) given the very bytes written. *)
Theorem handler_json_response h req w w' p :
  handle h req w = Done tt w' ->
  GraphqlDo p ∈ new_events w w' ->
  graphiql h && wants_html req = false ->
  playground h && wants_html req = false ->
  let body := served_body Result graphql_Do len_Errors format_Errors
                json_Marshal json_MarshalIndent h p in
  new_events w w'
  = (GraphqlDo p
     :: (if formats Result graphql_Do len_Errors h p
         then [FormatErrors] else [])
     ++ [HeaderAdd "Content-Type" "application/json; charset=utf-8";
         WriteHeader 200; Write body]
     ++ (if resultCallbackFn h then [ResultCallback p body] else []))%list.
Proof.
  intros Hrun Hin Hg Hp body.
  destruct (handler_done_cases h req w w' Hrun)
    as [Hev | [[_ Hev] | (_ & o & _ & Hev)]];
    rewrite Hev in Hin |- *.
  - repeat (apply elem_of_cons in Hin as [Hin|Hin]; [discriminate|]).
    by apply elem_of_nil in Hin.
  - repeat (apply elem_of_cons in Hin as [Hin|Hin]; [discriminate|]).
    by apply elem_of_nil in Hin.
  - apply elem_of_cons in Hin as [Hin|Hin].
    + injection Hin as ->. unfold response_events. by rewrite Hg, Hp.
    + pose proof (response_no_Do h req (params_of h req o)) as Hno.
      rewrite Forall_forall in Hno. by apply Hno in Hin.
Qed.

(** A request that wants HTML, for any method but OPTIONS, through a handler
    with GraphiQL or the playground on: a completed run either answered the
    not-found body (a look-up miss), or it has called [graphql.Do] first, on
    the request as the resolver left it, and then rendered the page and
    nothing else: no header, status or body is written by the handler and
    the callback is not called. GraphiQL takes precedence over the
    playground. *)
Theorem handler_html_response h req w w' :
  handle h req w = Done tt w' ->
  Method req <> "OPTIONS" ->
  wants_html req = true ->
  graphiql h || playground h = true ->
  new_events w w' = [HeaderSet "Content-Type" "application/json";
                     Write PersistedQueryNotFound]
  \/ exists o,
       heap w' !! request_loc w = Some o
       /\ new_events w w'
          = (GraphqlDo (params_of h req o)
             :: (if formats Result graphql_Do len_Errors h (params_of h req o)
                 then [FormatErrors] else [])
             ++ [if graphiql h then RenderGraphiQL (params_of h req o)
                 else RenderPlayground])%list.
Proof.
  intros Hrun Hm Hw Hui.
  destruct (handler_done_cases h req w w' Hrun)
    as [Hev | [[Hm' _] | (_ & o & Ho & Hev)]]; [by left | done |].
  right. exists o. split; [exact Ho|]. rewrite Hev.
  unfold response_events. rewrite Hw.
  destruct (graphiql h), (playground h); try discriminate; reflexivity.
Qed.

(** Every run that completes answers in one of three ways and no other: the
    not-found body (content type set first); for an OPTIONS request, status
    204 alone; otherwise one call of [graphql.Do] on the request as the
    resolver left it, followed by the response to its result. So the engine
    is called at most once per request, before anything is written, never
    for an OPTIONS request and never after a miss. *)
Theorem handler_responses h req w w' :
  handle h req w = Done tt w' ->
  (new_events w w' = [HeaderSet "Content-Type" "application/json";
                      Write PersistedQueryNotFound]
   \/ (Method req = "OPTIONS" /\ new_events w w' = [WriteHeader 204])
   \/ (Method req <> "OPTIONS"
       /\ exists o,
            heap w' !! request_loc w = Some o
            /\ new_events w w'
               = GraphqlDo (params_of h req o)
                 :: response h req (params_of h req o)))
  /\ Forall (fun ev => is_GraphqlDo ev = false) (tail (new_events w w'))
  /\ (Method req = "OPTIONS" ->
      Forall (fun ev => is_GraphqlDo ev = false) (new_events w w')).
Proof.
  intros Hrun. pose proof (handler_done_cases h req w w' Hrun) as Hc.
  split; [exact Hc|].
  destruct Hc as [-> | [[Hm ->] | (Hm & o & _ & ->)]].
  - split; [|intros _]; repeat constructor.
  - split; [|intros _]; repeat constructor.
  - split; [apply response_no_Do | done].
Qed.

(** The run on a request the resolver completes, whatever the method. *)
Lemma handler_executes h req w w1 o :
  persistedQueryCheck (Some (request_loc w)) (world_with (decode req) w)
    = Done (Some (request_loc w), None) w1 ->
  heap w1 !! request_loc w = Some o ->
  handle h req w
  = Done tt (with_trace
               (trace w ++
                if String.eqb (Method req) "OPTIONS"
                then [WriteHeader 204]
                else GraphqlDo (params_of h req o)
                     :: response h req (params_of h req o)) w1).
Proof.
  intros E Ho. pose proof (handler_outcome h req w) as Hh.
  rewrite E in Hh. destruct Hh as (o' & Ho' & ->).
  by assert (o' = o) as -> by congruence.
Qed.

(** A request without persisted-query data is executed as decoded: one call
    of [graphql.Do] with the request's own query, variables and operation
    name, and the cache is not touched. *)
Theorem handler_plain_request h req w :
  not_persisted (decode req) -> Method req <> "OPTIONS" ->
  exists w',
    handle h req w = Done tt w'
    /\ new_events w w'
       = GraphqlDo (params_of h req (decode req))
         :: response h req (params_of h req (decode req))
    /\ cache w' = cache w.
Proof.
  intros Hn Hm. apply String.eqb_neq in Hm.
  pose proof (check_not_persisted _ _ _ (world_with_lookup (decode req) w) Hn)
    as E.
  pose proof (handler_executes h req w _ _ E (world_with_lookup _ _)) as Hrun.
  rewrite Hm in Hrun. eexists. split; [exact Hrun|].
  split; [by apply new_events_app | reflexivity].
Qed.

(** A hash-only request whose hash is in the cache is executed with the
    cached query text and the cached operation name, and with the variables
    of the request itself; the cache is not touched. *)
Theorem handler_hash_only_request h req w values sha e :
  Query (decode req) = "" -> carries_hash (decode req) values sha ->
  sha <> "" -> cache w !! sha = Some e -> query e <> "" ->
  Method req <> "OPTIONS" ->
  exists w' p,
    handle h req w = Done tt w'
    /\ new_events w w' = GraphqlDo p :: response h req p
    /\ RequestString p = query e
    /\ ParamsOperationName p = operationName e
    /\ VariableValues p = Variables (decode req)
    /\ cache w' = cache w.
Proof.
  intros Hq Hr Hne Hc He Hm. apply String.eqb_neq in Hm.
  pose proof (check_lookup_hit (world_with (decode req) w) _ _ _ _ _
                (world_with_lookup _ _) Hq Hr Hne Hc He) as E.
  assert (Ho : heap (with_heap
                 (<[request_loc w := resolved e (decode req)]>
                    (heap (world_with (decode req) w)))
                 (world_with (decode req) w)) !! request_loc w
               = Some (resolved e (decode req)))
    by apply lookup_insert_eq.
  pose proof (handler_executes h req w _ _ E Ho) as Hrun.
  rewrite Hm in Hrun.
  eexists _, (params_of h req (resolved e (decode req))).
  split; [exact Hrun|]. split; [by apply new_events_app | done].
Qed.


(** A run keeps to its own request: whatever the outcome, the request
    objects that were on the heap before (those of other requests in
    flight) are as they were, and every hash that had a cache entry still
    has one. *)
Theorem handler_keeps_to_its_request h req w :
  let w' := final_world (handle h req w) in
  (forall l o, heap w !! l = Some o -> heap w' !! l = Some o)
  /\ (forall k, is_Some (cache w !! k) -> is_Some (cache w' !! k)).
Proof.
  cbv zeta.
  assert (Hsame : heap (final_world (handle h req w))
                  = heap (final_world
                            (persistedQueryCheck (Some (request_loc w))
                               (world_with (decode req) w)))
                  /\ cache (final_world (handle h req w))
                     = cache (final_world
                                (persistedQueryCheck (Some (request_loc w))
                                   (world_with (decode req) w)))).
  { pose proof (handler_outcome h req w) as Hh.
    destruct (persistedQueryCheck _ _) as [[p [err|]] w1 | f w0].
    - by rewrite Hh.
    - destruct Hh as (o & _ & ->). done.
    - by rewrite Hh. }
  destruct Hsame as [-> ->].
  destruct (check_heap_frame (Some (request_loc w))
              (world_with (decode req) w)) as [_ Ho].
  pose proof (check_cache (Some (request_loc w)) (world_with (decode req) w))
    as Hc.
  cbv zeta in Ho, Hc. split.
  - intros l o Hl. rewrite Ho.
    + by apply world_with_old.
    + intros Heq. injection Heq as <-. unfold request_loc in Hl.
      assert (Hin : fresh (dom (heap w)) ∈ dom (heap w))
        by (apply elem_of_dom; eauto).
      by apply is_fresh in Hin.
  - intros k Hk. change (cache (world_with (decode req) w)) with (cache w) in Hc.
    destruct Hc as [-> | (sha & e & ->)]; [done|].
    destruct (decide (sha = k)) as [->|Hne].
    + rewrite lookup_insert_eq. by eexists.
    + by rewrite lookup_insert_ne.
Qed.

End HandlerRuns.


(** ** Request decoding *)

Lemma first_token_app a b :
  first_token (a ++ String (Ascii.ascii_of_nat 59) b) = first_token a.
Proof.
  induction a as [|c a IH]; simpl.
  - reflexivity.
  - by rewrite IH.
Qed.

Section DecodingFacts.

Variable json_Unmarshal_map :
  string -> option (gmap string iface) -> option (gmap string iface).
Variable json_Unmarshal_RequestOptions : string -> RequestOptions * bool.
Variable json_Unmarshal_compat : string -> string.
Variable url_Query : string -> Values.
Variable http_ParseForm : HttpRequest -> option Values.

(** [decode r] is [NewRequestOptions r] with the libraries at hand. *)
#[local] Abbreviation decode :=
  (NewRequestOptions json_Unmarshal_map json_Unmarshal_RequestOptions
     json_Unmarshal_compat url_Query http_ParseForm).

Lemma getFromForm_unmarked values :
  unmarked (getFromForm json_Unmarshal_map values).
Proof. split; reflexivity. Qed.

(** Only a JSON body can hand the resolver a request whose output flags are
    already set (by what [json.Unmarshal] does with the body): a request
    read from the URL, from a form, from an [application/graphql] body, or
    made for a missing or unreadable body has [Persisted] and
    [HasPersistedParams] false. *)
Theorem decoded_flags_unset r :
  ReqMethod r <> "POST"
  \/ Body r = None \/ Body r = Some None
  \/ first_token (ContentType r) = ContentTypeGraphQL
  \/ first_token (ContentType r) = ContentTypeFormURLEncoded ->
  unmarked (decode r).
Proof.
  intros Hcase. unfold NewRequestOptions.
  destruct (String.eqb (ReqMethod r) "POST") eqn:Hm; cbn [negb];
    [|apply getFromForm_unmarked].
  apply String.eqb_eq in Hm.
  destruct (Body r) as [[b|]|] eqn:Hb; [| |done].
  - destruct Hcase as [Hc | [Hc | [Hc | [Hc | Hc]]]]; try congruence.
    + rewrite Hc. cbn [String.eqb]. by rewrite String.eqb_refl.
    + rewrite Hc.
      replace (ContentTypeFormURLEncoded =? ContentTypeGraphQL)%string
        with false by reflexivity.
      rewrite String.eqb_refl.
      destruct (http_ParseForm r); [apply getFromForm_unmarked | done].
  - destruct (_ =? ContentTypeGraphQL)%string; [done|].
    destruct (_ =? ContentTypeFormURLEncoded)%string; [|done].
    destruct (http_ParseForm r); [apply getFromForm_unmarked | done].
Qed.

(** Where the request is read from. For any method but POST it is the URL's
    query string, whatever the body and the content type. For a POST whose
    media type is not the form one (a JSON body, an [application/graphql]
    body, any other type), the URL's query string is not used at all. (A
    form POST goes through [r.ParseForm()], which reads the URL too.) *)
Theorem method_decides_the_source r :
  (ReqMethod r <> "POST" ->
   NewRequestOptions json_Unmarshal_map json_Unmarshal_RequestOptions
     json_Unmarshal_compat url_Query http_ParseForm r
   = getFromForm json_Unmarshal_map (url_Query (RawQuery r))
   /\ forall body ct,
        decode
          {| ReqMethod := ReqMethod r; RawQuery := RawQuery r;
             Body := body; ContentType := ct |}
        = decode r)
  /\ (ReqMethod r = "POST" ->
      first_token (ContentType r) <> ContentTypeFormURLEncoded ->
      forall raw,
        decode
          {| ReqMethod := ReqMethod r; RawQuery := raw; Body := Body r;
             ContentType := ContentType r |}
        = decode r).
Proof.
  split.
  - intros Hm. apply String.eqb_neq in Hm. unfold NewRequestOptions.
    cbn [ReqMethod RawQuery]. by rewrite Hm.
  - intros Hm Hct raw. apply String.eqb_neq in Hct.
    unfold NewRequestOptions. cbn [ReqMethod RawQuery Body ContentType].
    by rewrite Hm, Hct.
Qed.

(** For every request that is not a form POST, only the media type counts:
    whatever follows the first semicolon of the [Content-Type] header (a
    charset, a boundary, anything) makes no difference to how the request is
    decoded. (A form POST goes through [r.ParseForm()], which reads the
    whole header.) *)
Theorem content_type_parameters_ignored r ct params :
  ReqMethod r <> "POST"
  \/ first_token ct <> ContentTypeFormURLEncoded ->
  NewRequestOptions json_Unmarshal_map json_Unmarshal_RequestOptions
    json_Unmarshal_compat url_Query http_ParseForm
    {| ReqMethod := ReqMethod r; RawQuery := RawQuery r; Body := Body r;
       ContentType := ct ++ String (Ascii.ascii_of_nat 59) params |}
  = decode
      {| ReqMethod := ReqMethod r; RawQuery := RawQuery r; Body := Body r;
         ContentType := ct |}.
Proof.
  intros Hcase. unfold NewRequestOptions.
  cbn [ReqMethod RawQuery Body ContentType]. rewrite first_token_app.
  destruct (String.eqb (ReqMethod r) "POST") eqn:Hm; cbn [negb]; [|done].
  destruct Hcase as [Hne | Hct].
  - apply String.eqb_eq in Hm. done.
  - apply String.eqb_neq in Hct. by rewrite Hct.
Qed.

(** A POST with an [application/graphql] body is the body as the query and
    nothing else: no variables, no operation name, no extensions. So the
    resolver passes it through, and neither registers nor looks up
    anything, whatever the URL carries. *)
Theorem graphql_body_is_plain r b :
  ReqMethod r = "POST" -> Body r = Some (Some b) ->
  first_token (ContentType r) = ContentTypeGraphQL ->
  decode r = set_Query b zeroRequestOptions
  /\ not_persisted (decode r)
  /\ forall w l,
       heap w !! l = Some (decode r) ->
       persistedQueryCheck (Some l) w = Done (Some l, None) w.
Proof.
  intros Hm Hb Hc.
  assert (E : decode r = set_Query b zeroRequestOptions).
  { unfold NewRequestOptions. rewrite Hm, Hb, Hc. reflexivity. }
  split; [exact E|].
  assert (Hn : not_persisted (decode r)) by (rewrite E; by left).
  split; [exact Hn|].
  intros w l Hl. exact (check_not_persisted _ _ _ Hl Hn).
Qed.

End DecodingFacts.

(** ** Construction *)

(** [New] returns a handler exactly for a non-nil configuration with a
    schema, and the handler then has the configuration's settings. In every
    other case it panics: for a configuration without schema, and for a nil
    configuration too, since the default configuration that stands in for
    it has no schema. *)
Theorem New_needs_schema (graphql_Schema : Type)
    (p : option (Config graphql_Schema)) :
  New graphql_Schema None = ConstructionPanic graphql_Schema "undefined GraphQL schema"
  /\ ((exists s h, New graphql_Schema p = Constructed graphql_Schema s h)
      <-> exists c, p = Some c /\ is_Some (Schema graphql_Schema c))
  /\ (forall c s h,
        p = Some c -> New graphql_Schema p = Constructed graphql_Schema s h ->
        Schema graphql_Schema c = Some s
        /\ pretty h = Pretty graphql_Schema c
        /\ graphiql h = GraphiQL graphql_Schema c
        /\ playground h = Playground graphql_Schema c
        /\ rootObjectFn h = RootObjectFn graphql_Schema c
        /\ resultCallbackFn h = ResultCallbackFn graphql_Schema c
        /\ formatErrorFn h = FormatErrorFn graphql_Schema c).
Proof.
  split; [reflexivity|]. split.
  - split.
    + intros (s & h & Hnew). destruct p as [c|]; [|discriminate].
      exists c. split; [done|]. unfold New in Hnew.
      destruct (Schema _ c); [by eexists | discriminate].
    + intros (c & -> & s & Hs). unfold New. rewrite Hs. eauto.
  - intros c s h -> Hnew. unfold New in Hnew.
    destruct (Schema _ c) as [s'|]; [|discriminate].
    injection Hnew as <- <-. done.
Qed.

(** ** The further properties at sample requests *)

Lemma handler_responses_witness :
  let r := request "{ hello }" None in
  exists w',
    sample_serve (fun _ => r) sample_handler post (world_of []) = Done tt w'
    /\ Forall (fun ev => is_GraphqlDo ev = false)
         (tail (new_events (world_of []) w')).
Proof.
  intros r.
  destruct (sample_serve (fun _ => r) sample_handler post (world_of []))
    as [[] w'|f w'] eqn:E; [|vm_compute in E; discriminate].
  exists w'. split; [reflexivity|].
  exact (proj1 (proj2 (handler_responses (fun _ => r) unit (fun _ => tt)
                         (fun _ => 0) id (fun _ => "{}") (fun _ => "{}")
                         sample_handler post (world_of []) w' E))).
Defined.

(** A registration whose descriptor has no [version]. *)
Lemma handler_faults_on_bad_descriptor_witness :
  let r := request "{ hello }"
             (persisted {[ "sha256Hash" := IString "abc123" ]}) in
  exists w',
    sample_serve (fun _ => r) sample_handler post (world_of [])
      = Panic InterfaceConversion w'
    /\ trace w' = [] /\ new_events (world_of []) w' = []
    /\ cache w' = ∅.
Proof.
  intros r.
  apply (handler_faults_on_bad_descriptor (fun _ => r) unit (fun _ => tt)
           (fun _ => 0) id (fun _ => "{}") (fun _ => "{}")
           sample_handler post (world_of [])).
  right. exists {[ "sha256Hash" := IString "abc123" ]}, "abc123".
  split; [eexists; repeat split; reflexivity|].
  split; [discriminate|]. split; [discriminate | reflexivity].
Defined.

Lemma handler_json_response_witness :
  let r := request "{ hello }" None in
  let p := params_of sample_handler post r in
  exists w',
    sample_serve (fun _ => r) sample_handler post (world_of []) = Done tt w'
    /\ new_events (world_of []) w'
       = [GraphqlDo p;
          HeaderAdd "Content-Type" "application/json; charset=utf-8";
          WriteHeader 200; Write "{}"].
Proof.
  intros r p.
  destruct (sample_serve (fun _ => r) sample_handler post (world_of []))
    as [[] w'|f w'] eqn:E; [|vm_compute in E; discriminate].
  exists w'. split; [reflexivity|].
  apply (handler_json_response (fun _ => r) unit (fun _ => tt)
           (fun _ => 0) id (fun _ => "{}") (fun _ => "{}")
           sample_handler post (world_of []) w' p E).
  - vm_compute in E. injection E as <-. apply list_elem_of_here.
  - reflexivity.
  - reflexivity.
Defined.

Lemma handler_html_response_witness :
  let r := request "{ hello }" None in
  let p := params_of sample_handler browser r in
  exists w',
    sample_serve (fun _ => r) sample_handler browser (world_of [])
      = Done tt w'
    /\ new_events (world_of []) w' = [GraphqlDo p; RenderGraphiQL p].
Proof.
  intros r p.
  destruct (sample_serve (fun _ => r) sample_handler browser (world_of []))
    as [[] w'|f w'] eqn:E; [|vm_compute in E; discriminate].
  exists w'. split; [reflexivity|].
  destruct (handler_html_response (fun _ => r) unit (fun _ => tt)
              (fun _ => 0) id (fun _ => "{}") (fun _ => "{}")
              sample_handler browser (world_of []) w' E)
    as [Hmiss | (o & Ho & Hev)].
  - discriminate.
  - reflexivity.
  - reflexivity.
  - vm_compute in E. injection E as <-. vm_compute in Hmiss. discriminate.
  - vm_compute in E. injection E as <-. vm_compute in Ho.
    injection Ho as <-. exact Hev.
Defined.

Lemma handler_plain_request_witness :
  let r := request "{ hello }" None in
  exists w',
    sample_serve (fun _ => r) sample_handler post (world_of []) = Done tt w'
    /\ new_events (world_of []) w'
       = [GraphqlDo (params_of sample_handler post r);
          HeaderAdd "Content-Type" "application/json; charset=utf-8";
          WriteHeader 200; Write "{}"]
    /\ cache w' = ∅.
Proof.
  intros r.
  apply (handler_plain_request (fun _ => r) unit (fun _ => tt)
           (fun _ => 0) id (fun _ => "{}") (fun _ => "{}")
           sample_handler post (world_of [])).
  - by left.
  - discriminate.
Defined.

Lemma handler_hash_only_request_witness :
  let r := request "" (persisted (descriptor "abc123" one)) in
  let e := {| operationName := "Hello"; query := "query Hello { hello }";
              sha256Hash := "abc123"; version := 1%float |} in
  let w := with_cache {[ "abc123" := e ]} (world_of []) in
  exists w' p,
    sample_serve (fun _ => r) sample_handler post w = Done tt w'
    /\ new_events w w'
       = [GraphqlDo p;
          HeaderAdd "Content-Type" "application/json; charset=utf-8";
          WriteHeader 200; Write "{}"]
    /\ RequestString p = "query Hello { hello }"
    /\ ParamsOperationName p = "Hello".
Proof.
  intros r e w.
  destruct (handler_hash_only_request (fun _ => r) unit (fun _ => tt)
              (fun _ => 0) id (fun _ => "{}") (fun _ => "{}")
              sample_handler post w (descriptor "abc123" one) "abc123" e)
    as (w' & p & H1 & H2 & H3 & H4 & _).
  - reflexivity.
  - eexists. repeat split; reflexivity.
  - discriminate.
  - reflexivity.
  - discriminate.
  - discriminate.
  - exists w', p. exact (conj H1 (conj H2 (conj H3 H4))).
Defined.



(** A GET, and a POST whose body cannot be read. *)
Lemma decoded_flags_unset_witness :
  unmarked (sample_decode_request
              {| ReqMethod := "GET"; RawQuery := "query=%7Bhello%7D";
                 Body := None; ContentType := "" |})
  /\ unmarked (sample_decode_request
                 {| ReqMethod := "POST"; RawQuery := ""; Body := Some None;
                    ContentType := "application/json" |}).
Proof.
  split.
  - apply (decoded_flags_unset (fun _ m => m)
             (fun _ => (zeroRequestOptions, false)) (fun _ => "")
             (fun _ => ∅) (fun _ => None)).
    left. discriminate.
  - apply (decoded_flags_unset (fun _ m => m)
             (fun _ => (zeroRequestOptions, false)) (fun _ => "")
             (fun _ => ∅) (fun _ => None)).
    right. right. left. reflexivity.
Defined.

(** A JSON POST with a charset. *)
Lemma content_type_parameters_ignored_witness :
  let r := {| ReqMethod := "POST"; RawQuery := "";
              Body := Some (Some "{}"); ContentType := "" |} in
  sample_decode_request
    {| ReqMethod := ReqMethod r; RawQuery := RawQuery r; Body := Body r;
       ContentType := "application/json"
                      ++ String (Ascii.ascii_of_nat 59) " charset=utf-8" |}
  = sample_decode_request
      {| ReqMethod := ReqMethod r; RawQuery := RawQuery r; Body := Body r;
         ContentType := "application/json" |}.
Proof.
  intros r.
  apply (content_type_parameters_ignored (fun _ m => m)
           (fun _ => (zeroRequestOptions, false)) (fun _ => "")
           (fun _ => ∅) (fun _ => None) r "application/json"
           " charset=utf-8").
  right. discriminate.
Defined.

Lemma graphql_body_is_plain_witness :
  let r := {| ReqMethod := "POST";
              RawQuery := "extensions=%7B%7D";
              Body := Some (Some "{ hello }");
              ContentType := "application/graphql; charset=utf-8" |} in
  sample_decode_request r = set_Query "{ hello }" zeroRequestOptions
  /\ not_persisted (sample_decode_request r).
Proof.
  intros r.
  destruct (graphql_body_is_plain (fun _ m => m)
              (fun _ => (zeroRequestOptions, false)) (fun _ => "")
              (fun _ => ∅) (fun _ => None)
              r "{ hello }" eq_refl eq_refl eq_refl) as (H1 & H2 & _).
  exact (conj H1 H2).
Defined.
